(** * QuantCalendar: market synchronisation and shock detection

    A shallow embedding of the backend of the calendar dashboard
    (shockDetector.ts, normalize.ts, marketUpdater.ts) and of the part of
    App.tsx that writes the change-tracking fields, with the properties of
    the reconciliation pipeline stated over it.

    Conventions of the embedding.
    - A JavaScript number is a [number]: NaN, the two infinities, or an
      exact rational.  Arithmetic on finite numbers is exact: IEEE-754
      rounding is abstracted, the special values are kept because the code
      branches on them ([isNaN], [x || 0], comparisons that NaN fails).
    - Timestamps ([Date.now()]) are integers, in milliseconds.
    - Module-level mutable state, the document store and the clock live in
      one [World]; the functions of the source run in a state-and-exception
      monad over it. *)

From Stdlib Require Import ZArith QArith Qabs Qround Lia Lqa Bool List Ascii String.
From Stdlib Require Import DecimalString Sorted Permutation.
From stdpp Require Import base option gmap strings.
Import ListNotations.

Local Open Scope string_scope.
Local Open Scope Z_scope.

(* ===================================================================== *)
(** ** JavaScript numbers *)
(* ===================================================================== *)

Module JS.

Inductive number : Type :=
  | NaN
  | NegInf
  | PosInf
  | Fin (q : Q).

Definition zero : number := Fin 0.

Definition of_Z (z : Z) : number := Fin (inject_Z z).

(** [-x] *)
Definition neg (x : number) : number :=
  match x with
  | NaN => NaN
  | NegInf => PosInf
  | PosInf => NegInf
  | Fin q => Fin (Qred (- q))
  end.

(** [x - y] *)
Definition sub (x y : number) : number :=
  match x, y with
  | NaN, _ | _, NaN => NaN
  | PosInf, PosInf | NegInf, NegInf => NaN
  | PosInf, _ => PosInf
  | NegInf, _ => NegInf
  | Fin _, PosInf => NegInf
  | Fin _, NegInf => PosInf
  | Fin a, Fin b => Fin (Qred (a - b))
  end.

(** [Math.abs(x)] *)
Definition Math_abs (x : number) : number :=
  match x with
  | NaN => NaN
  | NegInf | PosInf => PosInf
  | Fin q => Fin (Qabs q)
  end.

(** [x < y]: false as soon as one side is NaN. *)
Definition lt (x y : number) : bool :=
  match x, y with
  | NaN, _ | _, NaN => false
  | _, NegInf => false
  | NegInf, _ => true
  | PosInf, _ => false
  | Fin _, PosInf => true
  | Fin a, Fin b => negb (Qle_bool b a)
  end.

(** [x <= y] *)
Definition le (x y : number) : bool :=
  match x, y with
  | NaN, _ | _, NaN => false
  | NegInf, _ => true
  | _, PosInf => true
  | PosInf, _ => false
  | Fin _, NegInf => false
  | Fin a, Fin b => Qle_bool a b
  end.

(** [x > y] and [x >= y] *)
Definition gt (x y : number) : bool := lt y x.
Definition ge (x y : number) : bool := le y x.

Definition isNaN (x : number) : bool :=
  match x with NaN => true | _ => false end.

(** Truthiness of a number: [0] and [NaN] are falsy. *)
Definition truthy (x : number) : bool :=
  match x with
  | NaN => false
  | Fin q => negb (Qeq_bool q 0)
  | _ => true
  end.

(** [x || 0] *)
Definition or_zero (x : number) : number := if truthy x then x else zero.

(** Truthiness of a string: only the empty string is falsy. *)
Definition nonempty (s : string) : bool :=
  match s with EmptyString => false | _ => true end.

(** [x !== undefined] *)
Definition is_defined {A} (o : option A) : bool :=
  match o with Some _ => true | None => false end.

(** [a || b] on strings *)
Definition str_or (a b : string) : string := if nonempty a then a else b.

(** *** Strings as the code uses them *)

Definition is_digit (c : ascii) : bool :=
  let n := nat_of_ascii c in (48 <=? n)%nat && (n <=? 57)%nat.

Definition digit_val (c : ascii) : Z := Z.of_nat (nat_of_ascii c) - 48.

(** The characters matched by [\s] that fit in one byte. *)
Definition is_space (c : ascii) : bool :=
  let n := nat_of_ascii c in
  ((9 <=? n)%nat && (n <=? 13)%nat) || (n =? 32)%nat.

Fixpoint span_digits (s : string) : list ascii * string :=
  match s with
  | String c r =>
      if is_digit c then let '(ds, t) := span_digits r in (c :: ds, t)
      else ([], s)
  | EmptyString => ([], s)
  end.

Definition digits_val (ds : list ascii) : Z :=
  fold_left (fun acc c => 10 * acc + digit_val c) ds 0.

Fixpoint skip_spaces (s : string) : string :=
  match s with
  | String c r => if is_space c then skip_spaces r else s
  | EmptyString => s
  end.

(** [10^e] for an integer [e] of either sign. *)
Definition pow10 (e : Z) : Q :=
  if (0 <=? e)%Z then inject_Z (10 ^ e) else / inject_Z (10 ^ (- e)).

(** The exponent part of a decimal literal: [e] or [E], an optional sign
    and at least one digit; an incomplete exponent is not consumed. *)
Definition exponent_part (s : string) : Z :=
  match s with
  | String c r =>
      if (Ascii.eqb c "e" || Ascii.eqb c "E")%bool then
        let '(sg, r') :=
          match r with
          | String "+" t => (1, t)
          | String "-" t => (-1, t)
          | _ => (1, r)
          end in
        match span_digits r' with
        | ([], _) => 0
        | (ds, _) => sg * digits_val ds
        end
      else 0
  | EmptyString => 0
  end.

(** [parseFloat(s)]: leading white space is skipped, the longest prefix
    that is a decimal literal is read, anything after it is ignored. *)
Definition parseFloat (s : string) : number :=
  let s0 := skip_spaces s in
  let '(negative, s1) :=
    match s0 with
    | String "+" t => (false, t)
    | String "-" t => (true, t)
    | _ => (false, s0)
    end in
  let signed (x : number) := if negative then neg x else x in
  if String.prefix "Infinity" s1 then signed PosInf
  else
    let '(ip, s2) := span_digits s1 in
    let '(fp, s3) :=
      match s2 with
      | String "." t => span_digits t
      | _ => ([], s2)
      end in
    match ip, fp with
    | [], [] => NaN
    | _, _ =>
        let mant := inject_Z (digits_val (ip ++ fp)) in
        let e := exponent_part s3 - Z.of_nat (List.length fp) in
        signed (Fin (Qred (mant * pow10 e)))
    end.

(** [s.replace(/[,$\s]/g, '')] *)
Fixpoint strip_formatting (s : string) : string :=
  match s with
  | String c r =>
      if (Ascii.eqb c "," || Ascii.eqb c "$" || is_space c)%bool
      then strip_formatting r
      else String c (strip_formatting r)
  | EmptyString => EmptyString
  end.

Definition string_of_N (n : N) : string :=
  NilZero.string_of_uint (N.to_uint n).

Definition string_of_Z (z : Z) : string :=
  NilZero.string_of_int (Z.to_int z).

(** [x.toFixed(d)].  For a finite [x] the integer [n] nearest to
    [10^d * |x|] is taken, the larger one on a tie, and written with [d]
    digits after the point.  (The exponent notation that JavaScript
    switches to from [1e21] on is not modelled; every call site passes a
    value it has bounded.) *)
Definition toFixed (d : nat) (x : number) : string :=
  match x with
  | NaN => "NaN"
  | PosInf => "Infinity"
  | NegInf => "-Infinity"
  | Fin q =>
      let n := Z.to_N (Qfloor (Qabs q * inject_Z (10 ^ Z.of_nat d) + (1 # 2))%Q) in
      let m := string_of_N n in
      let m := String.concat "" (repeat "0" (S d - String.length m)) ++ m in
      let k := (String.length m - d)%nat in
      (if negb (Qle_bool 0 q) then "-" else "")
        ++ substring 0 k m
        ++ (if (d =? 0)%nat then "" else "." ++ substring k d m)
  end.

(** [s.split('|')] *)
Fixpoint split_pipe_aux (cur : string) (s : string) : list string :=
  match s with
  | EmptyString => [cur]
  | String c r =>
      if Ascii.eqb c "|" then cur :: split_pipe_aux "" r
      else split_pipe_aux (cur ++ String c "") r
  end.

Definition split_pipe (s : string) : list string := split_pipe_aux "" s.

(** [l.join('|')] *)
Definition join_pipe (l : list string) : string := String.concat "|" l.

(** [s.toLowerCase()], on the letters of ASCII. *)
Definition lower_ascii (c : ascii) : ascii :=
  let n := nat_of_ascii c in
  if ((65 <=? n)%nat && (n <=? 90)%nat)%bool then ascii_of_nat (n + 32) else c.

Fixpoint toLowerCase (s : string) : string :=
  match s with
  | String c r => String (lower_ascii c) (toLowerCase r)
  | EmptyString => EmptyString
  end.

(** [s.replace(/\s+/g, '_')]: every maximal run of white space becomes
    one underscore. *)
Fixpoint spaces_to_underscore (in_run : bool) (s : string) : string :=
  match s with
  | String c r =>
      if is_space c
      then (if in_run then spaces_to_underscore true r
            else String "_" (spaces_to_underscore true r))
      else String c (spaces_to_underscore false r)
  | EmptyString => EmptyString
  end.

End JS.

Export JS.


(* ===================================================================== *)
(** ** Data model (types.ts, and [MarketData] of App.tsx) *)
(* ===================================================================== *)

(** [number | string], the type of a volume. *)
Inductive Volume : Type :=
  | VNum (n : number)
  | VStr (s : string).

Module Tag.
Record t : Type := mk { slug : option string; label : option string }.
End Tag.

Module GammaMarket.
(** Every field is optional; [None] is [undefined].  The last six are
    fields outside the declared type that one variant of the updater
    probes through [(gammaMarket as any)]. *)
Record t : Type := mk {
  id : option string;
  question : option string;
  volume : option Volume;
  endDate : option string;
  yesPrice : option number;
  noPrice : option number;
  closed : option bool;
  resolved : option bool;
  lastTradePrice : option number;
  bestBid : option number;
  price : option number;
  yes_price : option number;
  outcomePrices : option (list number);
  title : option string;
}.
End GammaMarket.

Module GammaEvent.
Record t : Type := mk {
  id : option string;
  title : option string;
  tags : option (list Tag.t);
  markets : option (list GammaMarket.t);
}.
End GammaEvent.

Module MarketShock.
Record t : Type := mk {
  marketId : string;
  previousProbability : number;
  newProbability : number;
  delta : number;
  timestamp : Z;
}.
End MarketShock.

Module MarketShockAlert.
Record t : Type := mk {
  id : string;
  shockCount : nat;
  windowStart : Z;
  windowEnd : Z;
  shocks : list MarketShock.t;
  createdAt : Z;
}.
End MarketShockAlert.

Inductive Source : Type := n8n | manual.

Module MarketData.
(** The persisted market record.  The fields after [tags] are not in the
    declared type; the backend reads them through the index signature. *)
Record t : Type := mk {
  id : string;
  title : string;
  resolveDate : string;
  probability : number;
  previousProbability : option number;
  changeDelta : option number;
  lastUpdated : Z;
  source : Source;
  catalyst : option string;
  question : option string;
  volume : option Volume;
  tags : option (list string);
  gammaMarketId : option string;
  marketId : option string;
  MarketID : option string;
  MarketId : option string;
  endDate : option string;
  EndDate : option string;
}.
End MarketData.

(* ===================================================================== *)
(** ** The world the backend runs in *)
(* ===================================================================== *)

(** The counters a reconciliation cycle reports. *)
Module Counters.
Record t : Type := mk { updated : nat; errors : nat; shocks : nat }.
End Counters.

(** - [recentShocks]: the module-level array of shockDetector.ts.
    - [clock], [ticks]: the last reading of [Date.now()] and the time that
      passes before each of the coming readings; the clock never runs
      backwards.
    - [db]: whether the Firestore handle is initialised (the module-level
      [db] of marketUpdater.ts).
    - [markets], [marketShockAlerts]: the two collections, each document
      with its id, in the order a query returns them.
    - [gamma]: what the upstream API answers during this cycle.
    - [faults]: for each coming call into the storage layer, whether it
      fails; an exhausted list means no further failure.
    - [result]: the object [result] of the running call of
      [updateMarkets].  The code increments its fields in place, also from
      inside [try] blocks, so what was counted before an exception stays
      counted; it is therefore kept with the rest of the mutable state. *)
Record World : Type := mkWorld {
  recentShocks : list MarketShock.t;
  clock : Z;
  ticks : list N;
  db : bool;
  markets : list (string * MarketData.t);
  marketShockAlerts : list (string * MarketShockAlert.t);
  gamma : list GammaEvent.t;
  faults : list bool;
  result : Counters.t;
}.

Definition set_recentShocks (l : list MarketShock.t) (w : World) : World :=
  mkWorld l (clock w) (ticks w) (db w) (markets w) (marketShockAlerts w)
          (gamma w) (faults w) (result w).

Definition set_clock (t : Z) (ds : list N) (w : World) : World :=
  mkWorld (recentShocks w) t ds (db w) (markets w) (marketShockAlerts w)
          (gamma w) (faults w) (result w).

Definition set_db (b : bool) (w : World) : World :=
  mkWorld (recentShocks w) (clock w) (ticks w) b (markets w)
          (marketShockAlerts w) (gamma w) (faults w) (result w).

Definition set_markets (m : list (string * MarketData.t)) (w : World) : World :=
  mkWorld (recentShocks w) (clock w) (ticks w) (db w) m (marketShockAlerts w)
          (gamma w) (faults w) (result w).

Definition set_marketShockAlerts (a : list (string * MarketShockAlert.t))
    (w : World) : World :=
  mkWorld (recentShocks w) (clock w) (ticks w) (db w) (markets w) a
          (gamma w) (faults w) (result w).

Definition set_faults (f : list bool) (w : World) : World :=
  mkWorld (recentShocks w) (clock w) (ticks w) (db w) (markets w)
          (marketShockAlerts w) (gamma w) f (result w).

Definition set_result (r : Counters.t) (w : World) : World :=
  mkWorld (recentShocks w) (clock w) (ticks w) (db w) (markets w)
          (marketShockAlerts w) (gamma w) (faults w) r.

(** *** State and exceptions *)

Inductive outcome (A : Type) : Type :=
  | Ok (a : A)
  | Throw (message : string).
Arguments Ok {A} a.
Arguments Throw {A} message.

Definition M (A : Type) : Type := World -> outcome A * World.

Definition ret {A} (a : A) : M A := fun w => (Ok a, w).

Definition bind {A B} (m : M A) (k : A -> M B) : M B :=
  fun w =>
    match m w with
    | (Ok a, w') => k a w'
    | (Throw e, w') => (Throw e, w')
    end.

Definition throw {A} (e : string) : M A := fun w => (Throw e, w).

(** [try { m } catch (error) { handler }]: the effects [m] had before it
    threw stay. *)
Definition try_catch {A} (m : M A) (handler : string -> M A) : M A :=
  fun w =>
    match m w with
    | (Ok a, w') => (Ok a, w')
    | (Throw e, w') => handler e w'
    end.

Definition get {A} (f : World -> A) : M A := fun w => (Ok (f w), w).
Definition modify (f : World -> World) : M unit := fun w => (Ok tt, f w).

Declare Scope js_scope.
Delimit Scope js_scope with js.
Notation "'let*' x ':=' m 'in' k" := (bind m (fun x => k))
  (at level 10, x name, m at level 100, k at level 200) : js_scope.
Notation "m1 ';;;' m2" := (bind m1 (fun _ => m2))
  (at level 100, m2 at level 200, right associativity) : js_scope.
Local Open Scope js_scope.

(** [Date.now()]: the clock moves on by the next entry of [ticks] (by
    nothing once the list is exhausted) and is read. *)
Definition next_time (w : World) : Z := clock w + Z.of_N (hd 0%N (ticks w)).

Definition advance (w : World) : World := set_clock (next_time w) (tl (ticks w)) w.

Definition Date_now : M Z := fun w => (Ok (next_time w), advance w).

(** [for (const x of l) { body }], threading an accumulator. *)
Fixpoint for_of {A S} (l : list A) (body : A -> S -> M S) (s : S) : M S :=
  match l with
  | [] => ret s
  | x :: r => let* s' := body x s in for_of r body s'
  end.

(* ===================================================================== *)
(** ** shockDetector.ts *)
(* ===================================================================== *)

Module ShockDetector.

(** 5% absolute change *)
Definition SHOCK_THRESHOLD : number := Fin (5 # 100).
(** Number of shocks to trigger an alert *)
Definition SHOCK_COUNT_THRESHOLD : nat := 5.
(** 15 minutes rolling window *)
Definition SHOCK_WINDOW_MS : Z := 15 * 60 * 1000.

(** [while (a.length > 0 && a[0].timestamp < cutoff) a.shift()] *)
Fixpoint shift_older (cutoff : Z) (a : list MarketShock.t) : list MarketShock.t :=
  match a with
  | s :: r => if MarketShock.timestamp s <? cutoff then shift_older cutoff r else a
  | [] => []
  end.

Definition detectShock (marketId : string)
    (previousProbability newProbability : number) : M (option MarketShock.t) :=
  let delta := Math_abs (sub newProbability previousProbability) in
  if ge delta SHOCK_THRESHOLD then
    let* t := Date_now in
    let shock := MarketShock.mk marketId previousProbability newProbability delta t in
    modify (fun w => set_recentShocks (recentShocks w ++ [shock]) w) ;;;
    let* t' := Date_now in
    let cutoff := t' - SHOCK_WINDOW_MS in
    modify (fun w => set_recentShocks (shift_older cutoff (recentShocks w)) w) ;;;
    ret (Some shock)
  else ret None.

(** The per-market tally that [checkShockAlert] builds in a [Map]. *)
Definition marketShockCounts (windowShocks : list MarketShock.t) : gmap string nat :=
  fold_left
    (fun (counts : gmap string nat) shock =>
       <[MarketShock.marketId shock :=
           S (default 0%nat (counts !! MarketShock.marketId shock))]> counts)
    windowShocks ∅.

Definition checkShockAlert : M (option MarketShockAlert.t) :=
  let* t := Date_now in
  let windowStart := t - SHOCK_WINDOW_MS in
  let* recent := get recentShocks in
  let windowShocks :=
    List.filter (fun s => windowStart <=? MarketShock.timestamp s) recent in
  if (SHOCK_COUNT_THRESHOLD <=? List.length windowShocks)%nat then
    let _counts := marketShockCounts windowShocks in
    let* t_id := Date_now in
    let* t_end := Date_now in
    let* t_created := Date_now in
    ret (Some (MarketShockAlert.mk ("shock-" ++ string_of_Z t_id)
                 (List.length windowShocks) windowStart t_end windowShocks
                 t_created))
  else ret None.

Definition cleanupOldShocks : M unit :=
  let* t := Date_now in
  let cutoff := t - SHOCK_WINDOW_MS * 2 in
  modify (fun w => set_recentShocks (shift_older cutoff (recentShocks w)) w).

End ShockDetector.

(* ===================================================================== *)
(** ** normalize.ts *)
(* ===================================================================== *)

(** What the two variants of normalize.ts share. *)
Module NormalizeCommon.

Definition opt_nonempty (o : option string) : bool :=
  match o with Some s => nonempty s | None => false end.

(** [tagsToString]: [slug || label] of every tag, the falsy ones dropped,
    lower-cased, white space turned into underscores, joined by a pipe. *)
Definition tagsToString (tags : list Tag.t) : string :=
  join_pipe
    (List.map (fun t => spaces_to_underscore false (toLowerCase t))
       (List.flat_map
          (fun t =>
             let picked := if opt_nonempty (Tag.slug t) then Tag.slug t
                           else Tag.label t in
             match picked with
             | Some s => if nonempty s then [s] else []
             | None => []
             end)
          tags)).

(** [flag] used as a condition: [undefined] and [false] are falsy. *)
Definition flag (b : option bool) : bool := default false b.

(** [Number(x)] of an optional number: [Number(undefined)] is NaN. *)
Definition Number_opt (x : option number) : number := default NaN x.

(** Truthiness of a volume: [undefined], [0], [NaN] and [''] are falsy. *)
Definition volume_truthy (v : option Volume) : bool :=
  match v with
  | Some (VNum n) => truthy n
  | Some (VStr s) => nonempty s
  | None => false
  end.

(** [v || 0] on a volume *)
Definition volume_or_zero (v : option Volume) : Volume :=
  if volume_truthy v then default (VNum zero) v else VNum zero.

End NormalizeCommon.

(** The variant that filters and ranks (the second normalize.ts). *)
Module NormalizeFiltered.
Import NormalizeCommon.

Module NormalizedMarket.
Record t : Type := mk {
  Catalyst_Name : string;
  Question : string;
  Price : string;
  Volume : Volume;
  EndDate : string;
  Tags : string;
}.
End NormalizedMarket.

(** [typeof v === 'string' ? parseFloat(v.replace(/[,$\s]/g, ''))
                           : Number(v) || 0] *)
Definition volumeOf (market : GammaMarket.t) : number :=
  match GammaMarket.volume market with
  | Some (VStr s) => parseFloat (strip_formatting s)
  | Some (VNum n) => or_zero n
  | None => zero
  end.

(** The callback of [filter]. *)
Definition keep (existingMarketIds : gset string) (market : GammaMarket.t) : bool :=
  let volume := volumeOf market in
  if lt volume (of_Z 20000) then false
  else if flag (GammaMarket.closed market) || flag (GammaMarket.resolved market)
  then false
  else
    let yesPrice := or_zero (Number_opt (GammaMarket.yesPrice market)) in
    if le yesPrice (Fin (1 # 100)) || ge yesPrice (Fin (99 # 100)) then false
    else
      match GammaMarket.id market with
      | Some marketId =>
          if negb (nonempty marketId)
             || negb (bool_decide (marketId ∈ existingMarketIds))
          then false else true
      | None => false
      end.

(** The callback of [sort]: [volB - volA]. *)
Definition byVolumeDesc (a b : GammaMarket.t) : number :=
  sub (volumeOf b) (volumeOf a).

(** [Array.prototype.sort(compare)].  The sort of ECMAScript is stable and
    puts [a] after [b] when [compare(a, b) > 0]; a NaN from the callback
    counts as [0].  It is written here as an insertion sort; for a
    consistent comparator every stable sort returns the same array. *)
Fixpoint insert_by {A} (compare : A -> A -> number) (x : A) (l : list A) : list A :=
  match l with
  | [] => [x]
  | y :: r => if gt (compare x y) zero then y :: insert_by compare x r
              else x :: l
  end.

Fixpoint sort_by {A} (compare : A -> A -> number) (l : list A) : list A :=
  match l with
  | [] => []
  | x :: r => insert_by compare x (sort_by compare r)
  end.

(** [markets.filter(...).sort(...).slice(0, 5)] *)
Definition validMarkets (existingMarketIds : gset string)
    (markets : list GammaMarket.t) : list GammaMarket.t :=
  firstn 5 (sort_by byVolumeDesc (List.filter (keep existingMarketIds) markets)).

Definition flatten (eventTitle tagsString : string) (market : GammaMarket.t)
  : NormalizedMarket.t :=
  let yesPrice := or_zero (Number_opt (GammaMarket.yesPrice market)) in
  NormalizedMarket.mk eventTitle
    (default "" (GammaMarket.question market))
    (toFixed 2 yesPrice)
    (volume_or_zero (GammaMarket.volume market))
    (default "" (GammaMarket.endDate market))
    tagsString.

Definition normalizeGammaEvent (event : GammaEvent.t)
    (existingMarketIds : gset string) : list NormalizedMarket.t :=
  let eventTitle := default "" (GammaEvent.title event) in
  if negb (nonempty eventTitle) then []
  else
    let tagsString := tagsToString (default [] (GammaEvent.tags event)) in
    let markets := default [] (GammaEvent.markets event) in
    List.map (flatten eventTitle tagsString)
      (validMarkets existingMarketIds markets).

End NormalizeFiltered.

(** The variant that only refreshes known markets (the first normalize.ts,
    the one marketUpdater.ts is written against: it returns [marketId]). *)
Module NormalizeById.
Import NormalizeCommon.

Module NormalizedMarket.
Record t : Type := mk {
  marketId : string;
  Catalyst_Name : string;
  Question : string;
  Price : string;
  Volume : Volume;
  EndDate : string;
  Tags : string;
}.
End NormalizedMarket.

(** The normalisation of the volume: a string that parses becomes the
    number, one that does not stays as it is. *)
Definition normalizeVolume (v : option Volume) : Volume :=
  match volume_or_zero v with
  | VStr s =>
      let parsed := parseFloat (strip_formatting s) in
      if isNaN parsed then VStr s else VNum parsed
  | VNum n => VNum (or_zero n)
  end.

(** The body of the loop over the markets of an event: [None] stands for
    [continue]. *)
Definition normalizeMarket (eventTitle tagsString : string)
    (existingMarketIds : gset string) (market : GammaMarket.t)
  : option NormalizedMarket.t :=
  let marketId := default "" (GammaMarket.id market) in
  if negb (nonempty marketId) || negb (bool_decide (marketId ∈ existingMarketIds))
  then None
  else
    let yesPrice := Number_opt (GammaMarket.yesPrice market) in
    if isNaN yesPrice || lt yesPrice zero || gt yesPrice (of_Z 1) then None
    else
      Some (NormalizedMarket.mk marketId eventTitle
              (default "" (GammaMarket.question market))
              (toFixed 2 yesPrice)
              (normalizeVolume (GammaMarket.volume market))
              (default "" (GammaMarket.endDate market))
              tagsString).

Definition normalizeGammaEvent (event : GammaEvent.t)
    (existingMarketIds : gset string) : list NormalizedMarket.t :=
  let eventTitle := default "" (GammaEvent.title event) in
  if negb (nonempty eventTitle) then []
  else
    let tagsString := tagsToString (default [] (GammaEvent.tags event)) in
    let markets := default [] (GammaEvent.markets event) in
    List.flat_map
      (fun market =>
         match normalizeMarket eventTitle tagsString existingMarketIds market with
         | Some n => [n]
         | None => []
         end)
      markets.

End NormalizeById.

(* ===================================================================== *)
(** ** The storage layer (firebase-admin), as the updater uses it *)
(* ===================================================================== *)

Module Firestore.

(** One call into the storage layer: it fails when the next entry of
    [faults] says so. *)
Definition storage_call (what : string) : M unit :=
  fun w =>
    match faults w with
    | true :: fs => (Throw what, set_faults fs w)
    | false :: fs => (Ok tt, set_faults fs w)
    | [] => (Ok tt, w)
    end.

(** [getFirestore()]: the handle is created on first use and kept; a
    failure of the initialisation is rethrown as one error. *)
Definition getFirestore : M unit :=
  let* ready := get db in
  if ready then ret tt
  else
    try_catch (storage_call "initializeApp" ;;; modify (set_db true))
      (fun e => throw ("Firebase Admin SDK initialization failed: " ++ e)).

(** [marketsRef.get()] and [marketsRef.limit(n).get()] *)
Definition markets_get (limit : option nat) : M (list (string * MarketData.t)) :=
  storage_call "get" ;;;
  let* docs := get markets in
  ret (match limit with Some n => firstn n docs | None => docs end).

Fixpoint lookup_doc {A} (key : string) (docs : list (string * A)) : option A :=
  match docs with
  | [] => None
  | (k, d) :: r => if String.eqb k key then Some d else lookup_doc key r
  end.

(** Writing the document [key]: an existing one is replaced by [f] of it,
    a missing one is created from [fresh] (when there is one) at its place
    in the order of the ids. *)
Fixpoint write_doc {A} (key : string) (f : A -> A) (fresh : option A)
    (docs : list (string * A)) : list (string * A) :=
  match docs with
  | [] => match fresh with Some d => [(key, d)] | None => [] end
  | (k, d) :: r =>
      if String.eqb k key then (k, f d) :: r
      else if String.ltb key k
           then match fresh with
                | Some d' => (key, d') :: docs
                | None => (k, d) :: write_doc key f fresh r
                end
           else (k, d) :: write_doc key f fresh r
  end.

(** What [set(obj, { merge: true })] leaves in a document that exists:
    the fields [obj] has replace the stored ones, the others stay. *)
Definition merge (obj stored : MarketData.t) : MarketData.t :=
  let pick {A} (new old : option A) : option A :=
    match new with Some _ => new | None => old end in
  MarketData.mk
    (MarketData.id obj) (MarketData.title obj) (MarketData.resolveDate obj)
    (MarketData.probability obj)
    (pick (MarketData.previousProbability obj) (MarketData.previousProbability stored))
    (pick (MarketData.changeDelta obj) (MarketData.changeDelta stored))
    (MarketData.lastUpdated obj) (MarketData.source obj)
    (pick (MarketData.catalyst obj) (MarketData.catalyst stored))
    (pick (MarketData.question obj) (MarketData.question stored))
    (pick (MarketData.volume obj) (MarketData.volume stored))
    (pick (MarketData.tags obj) (MarketData.tags stored))
    (pick (MarketData.gammaMarketId obj) (MarketData.gammaMarketId stored))
    (pick (MarketData.marketId obj) (MarketData.marketId stored))
    (pick (MarketData.MarketID obj) (MarketData.MarketID stored))
    (pick (MarketData.MarketId obj) (MarketData.MarketId stored))
    (pick (MarketData.endDate obj) (MarketData.endDate stored))
    (pick (MarketData.EndDate obj) (MarketData.EndDate stored)).

(** [marketRef.set(obj, { merge: true })].  [defined] tells whether every
    property of the object has a value: the client rejects an object with
    an [undefined] property before it sends anything. *)
Definition market_set_merge (key : string) (defined : bool) (obj : MarketData.t)
  : M unit :=
  if defined
  then
    storage_call "set" ;;;
    modify (fun w => set_markets (write_doc key (merge obj) (Some obj) (markets w)) w)
  else throw "Cannot use undefined as a Firestore value".

(** [marketRef.update(fields)]: fails on a document that does not exist. *)
Definition market_update (key : string) (f : MarketData.t -> MarketData.t)
  : M unit :=
  storage_call "update" ;;;
  let* docs := get markets in
  match lookup_doc key docs with
  | Some _ => modify (fun w => set_markets (write_doc key f None (markets w)) w)
  | None => throw "No document to update"
  end.

(** [alertRef.set(alert)] *)
Definition alert_set (key : string) (alert : MarketShockAlert.t) : M unit :=
  storage_call "set" ;;;
  modify (fun w =>
            set_marketShockAlerts
              (write_doc key (fun _ => alert) (Some alert) (marketShockAlerts w)) w).

End Firestore.

(* ===================================================================== *)
(** ** marketUpdater.ts *)
(* ===================================================================== *)

(** Increments of the fields of [result]. *)
Definition count_updated : M unit :=
  modify (fun w =>
    let r := result w in
    set_result (Counters.mk (S (Counters.updated r)) (Counters.errors r)
                            (Counters.shocks r)) w).

Definition count_error : M unit :=
  modify (fun w =>
    let r := result w in
    set_result (Counters.mk (Counters.updated r) (S (Counters.errors r))
                            (Counters.shocks r)) w).

Definition count_shock : M unit :=
  modify (fun w =>
    let r := result w in
    set_result (Counters.mk (Counters.updated r) (Counters.errors r)
                            (S (Counters.shocks r))) w).

Module MarketUpdater.
Import NormalizeCommon NormalizeById.

(** [fetchGammaMarkets()]: the HTTP request and the probing of the
    envelope are not modelled; the function catches every failure and
    returns a list, which is the [gamma] of the world. *)
Definition fetchGammaMarkets : M (list GammaEvent.t) := get gamma.

(** [getExistingMarketIds()] *)
Definition getExistingMarketIds : M (gset string) :=
  try_catch
    (Firestore.getFirestore ;;;
     let* snapshot := Firestore.markets_get (Some 1000%nat) in
     ret (fold_left
            (fun (marketIds : gset string) (doc : string * MarketData.t) =>
               let data := snd doc in
               let marketIds :=
                 if nonempty (MarketData.id data)
                 then {[ MarketData.id data ]} ∪ marketIds else marketIds in
               match MarketData.gammaMarketId data with
               | Some g => if nonempty g then {[ g ]} ∪ marketIds else marketIds
               | None => marketIds
               end)
            snapshot ∅))
    (fun _ => ret ∅).

(** The object [{ ...existingMarket, ...updateData }] that [updateMarket]
    writes, and whether all of its properties are defined. *)
Definition updatedDocument (normalized : NormalizedMarket.t)
    (existingMarket : MarketData.t) (newProbability previousProbability : number)
    (lastUpdated : Z) : bool * MarketData.t :=
  let title := str_or (NormalizedMarket.Question normalized)
                      (MarketData.title existingMarket) in
  let catalyst := if nonempty (NormalizedMarket.Catalyst_Name normalized)
                  then Some (NormalizedMarket.Catalyst_Name normalized)
                  else MarketData.catalyst existingMarket in
  let question := if nonempty (NormalizedMarket.Question normalized)
                  then Some (NormalizedMarket.Question normalized)
                  else MarketData.question existingMarket in
  let volume := NormalizedMarket.Volume normalized in
  let resolveDate := str_or (NormalizedMarket.EndDate normalized)
                            (MarketData.resolveDate existingMarket) in
  let tags := if nonempty (NormalizedMarket.Tags normalized)
              then Some (split_pipe (NormalizedMarket.Tags normalized))
              else MarketData.tags existingMarket in
  (is_defined catalyst && is_defined question && is_defined tags,
   MarketData.mk
     (MarketData.id existingMarket) title resolveDate newProbability
     (Some (MarketData.probability existingMarket))
     (Some (sub newProbability previousProbability))
     lastUpdated (MarketData.source existingMarket)
     catalyst question (Some volume) tags
     (MarketData.gammaMarketId existingMarket)
     (MarketData.marketId existingMarket)
     (MarketData.MarketID existingMarket)
     (MarketData.MarketId existingMarket)
     (MarketData.endDate existingMarket)
     (MarketData.EndDate existingMarket)).

Definition updateMarket (marketId : string) (normalized : NormalizedMarket.t)
    (existingMarket : MarketData.t) : M bool :=
  try_catch
    (let newProbability := parseFloat (NormalizedMarket.Price normalized) in
     let previousProbability := or_zero (MarketData.probability existingMarket) in
     let* _shock := ShockDetector.detectShock marketId previousProbability
                      newProbability in
     Firestore.getFirestore ;;;
     let* lastUpdated := Date_now in
     let '(defined, document) :=
       updatedDocument normalized existingMarket newProbability
         previousProbability lastUpdated in
     Firestore.market_set_merge (MarketData.id existingMarket) defined document ;;;
     ret true)
    (fun _ => ret false).

(** The body of the loop over the normalized markets of one event. *)
Definition processNormalized (existingMarkets : gmap string MarketData.t)
    (normalizedMarket : NormalizedMarket.t) : M unit :=
  match existingMarkets !! NormalizedMarket.marketId normalizedMarket with
  | None => ret tt
  | Some existingMarket =>
      let* updated := updateMarket (MarketData.id existingMarket)
                        normalizedMarket existingMarket in
      if updated then
        count_updated ;;;
        let newProb := parseFloat (NormalizedMarket.Price normalizedMarket) in
        let oldProb := or_zero (MarketData.probability existingMarket) in
        if ge (Math_abs (sub newProb oldProb)) (Fin (5 # 100))
        then count_shock else ret tt
      else count_error
  end.

(** [for (const x of l) { body }] for a body that returns nothing. *)
Definition for_each {A} (l : list A) (body : A -> M unit) : M unit :=
  for_of l (fun x _ => body x) tt.

(** The body of the loop over the events, with its own [try]. *)
Definition processEvent (existingMarketIds : gset string)
    (existingMarkets : gmap string MarketData.t) (gammaEvent : GammaEvent.t)
  : M unit :=
  try_catch
    (let normalizedMarkets := normalizeGammaEvent gammaEvent existingMarketIds in
     if (List.length normalizedMarkets =? 0)%nat then ret tt
     else for_each normalizedMarkets (processNormalized existingMarkets))
    (fun _ => count_error).

(** What follows the loop: the alert check and the write of the alert. *)
Definition raiseAlert : M unit :=
  let* alert := ShockDetector.checkShockAlert in
  match alert with
  | Some a =>
      Firestore.getFirestore ;;;
      Firestore.alert_set (MarketShockAlert.id a) a
  | None => ret tt
  end.

Definition updateMarkets : M Counters.t :=
  modify (set_result (Counters.mk 0 0 0)) ;;;
  try_catch
    (ShockDetector.cleanupOldShocks ;;;
     let* existingMarketIds := getExistingMarketIds in
     if (size existingMarketIds =? 0)%nat then ret tt
     else
       Firestore.getFirestore ;;;
       let* snapshot := Firestore.markets_get None in
       let existingMarkets :=
         fold_left
           (fun (m : gmap string MarketData.t) (doc : string * MarketData.t) =>
              <[MarketData.id (snd doc) := snd doc]> m)
           snapshot ∅ in
       let* gammaEvents := fetchGammaMarkets in
       if (List.length gammaEvents =? 0)%nat then ret tt
       else
         for_each gammaEvents (processEvent existingMarketIds existingMarkets) ;;;
         raiseAlert)
    (fun _ => count_error) ;;;
  get result.

End MarketUpdater.

(* ===================================================================== *)
(** ** marketUpdater.ts, the variant that matches by Polymarket id,
       freezes resolved markets and writes the price fields only *)
(* ===================================================================== *)

Module MarketUpdaterById.
Import NormalizeCommon NormalizeById.

Definition MS_PER_DAY : Z := 86400000.

(** Day number (days since 1970-01-01) of a civil date; [m] is 1-based. *)
Definition days_from_civil (y m d : Z) : Z :=
  let y' := if m <=? 2 then y - 1 else y in
  let era := y' / 400 in
  let yoe := y' - era * 400 in
  let doy := (153 * (m + (if 2 <? m then -3 else 9)) + 2) / 5 + d - 1 in
  let doe := yoe * 365 + yoe / 4 - yoe / 100 + doy in
  era * 146097 + doe - 719468.

(** The day on which [new Date(year, monthIndex, day)] falls: a two-digit
    year counts from 1900, a month index outside of 0..11 carries into the
    year, and the day of the month is an offset from the first. *)
Definition MakeDay (year monthIndex day : Z) : Z :=
  let year := if (0 <=? year) && (year <=? 99) then 1900 + year else year in
  let ym := year + monthIndex / 12 in
  let mn := monthIndex mod 12 in
  days_from_civil ym (mn + 1) 1 + day - 1.

(** [/^\d{4}-\d{2}-\d{2}$/]: the three numbers when the string matches. *)
Definition plain_date (s : string) : option (Z * Z * Z) :=
  match list_ascii_of_string s with
  | [y1; y2; y3; y4; "-"%char; m1; m2; "-"%char; d1; d2] =>
      if forallb is_digit [y1; y2; y3; y4; m1; m2; d1; d2]
      then Some (digits_val [y1; y2; y3; y4], digits_val [m1; m2],
                 digits_val [d1; d2])
      else None
  | _ => None
  end.

(** [/^\d+$/] *)
Definition all_digits (s : string) : bool :=
  nonempty s && forallb is_digit (list_ascii_of_string s).

Fixpoint includes_T (s : string) : bool :=
  match s with
  | String c r => Ascii.eqb c "T" || includes_T r
  | EmptyString => false
  end.

(** The largest time value a [Date] holds; beyond it the date is invalid. *)
Definition MAX_TIME : Z := 8640000000000000.

Section Dates.

(** The parser of the [Date] constructor for a string, which the engine
    provides ([None]: Invalid Date), and the offset of local time from UTC
    in milliseconds, taken as constant. *)
Variable Date_parse : string -> option Z.
Variable tz : Z.

(** Local midnight of the day an instant falls on:
    [new Date(d.getFullYear(), d.getMonth(), d.getDate())]. *)
Definition local_midnight (t : Z) : Z := (t + tz) / MS_PER_DAY * MS_PER_DAY - tz.

(** The instant the date string stands for, by the four cases of
    [isMarketResolved]. *)
Definition parse_date (dateStr : string) : option Z :=
  if includes_T dateStr then Date_parse dateStr
  else
    match plain_date dateStr with
    | Some (y, m, d) => Some (MakeDay y (m - 1) d * MS_PER_DAY - tz)
    | None =>
        if all_digits dateStr
        then (let t := digits_val (list_ascii_of_string dateStr) in
              if t <=? MAX_TIME then Some t else None)
        else Date_parse dateStr
    end.

Definition isMarketResolved (endDate resolveDate : option string) : M bool :=
  if negb (opt_nonempty endDate) && negb (opt_nonempty resolveDate) then ret false
  else
    let dateStr := if opt_nonempty endDate then endDate else resolveDate in
    match dateStr with
    | None => ret false
    | Some dateStr =>
        if negb (nonempty dateStr) then ret false
        else
          match parse_date dateStr with
          | None => ret false
          | Some date =>
              let* now := Date_now in
              if is_defined (plain_date dateStr)
              then
                let today := local_midnight now in
                let endDateOnly := local_midnight date in
                ret (endDateOnly <? today)
              else ret (date <? now)
          end
    end.

(** A [Set<string>] that the code iterates: its elements in the order of
    insertion. *)
Definition set_add (x : string) (l : list string) : list string :=
  if existsb (String.eqb x) l then l else l ++ [x].

(** The first of the given properties that holds a non-empty string. *)
Fixpoint first_truthy (l : list (option string)) : option string :=
  match l with
  | [] => None
  | o :: r => if opt_nonempty o then o else first_truthy r
  end.

Definition getExistingMarketIds : M (list string) :=
  try_catch
    (Firestore.getFirestore ;;;
     let* snapshot := Firestore.markets_get (Some 1000%nat) in
     ret (fold_left
            (fun (marketIds : list string) (doc : string * MarketData.t) =>
               let data := snd doc in
               match first_truthy [MarketData.MarketID data; MarketData.marketId data;
                                   MarketData.MarketId data;
                                   MarketData.gammaMarketId data] with
               | Some marketId => set_add marketId marketIds
               | None => marketIds
               end)
            snapshot []))
    (fun _ => ret []).

(** [fetchGammaMarkets(marketIds)]: the requests are not modelled; the
    function catches every failure and returns a list of markets, here
    the markets of the events the world answers with. *)
Definition fetchGammaMarkets : M (list GammaMarket.t) :=
  let* events := get gamma in
  ret (List.flat_map (fun e => default [] (GammaEvent.markets e)) events).

(** The four fields [updateMarket] passes to [update]. *)
Definition priceFields (newProbability : number) (lastUpdated : Z)
    (previousProbability changeDelta : number) (stored : MarketData.t)
  : MarketData.t :=
  MarketData.mk
    (MarketData.id stored) (MarketData.title stored)
    (MarketData.resolveDate stored) newProbability
    (Some previousProbability) (Some changeDelta) lastUpdated
    (MarketData.source stored) (MarketData.catalyst stored)
    (MarketData.question stored) (MarketData.volume stored)
    (MarketData.tags stored) (MarketData.gammaMarketId stored)
    (MarketData.marketId stored) (MarketData.MarketID stored)
    (MarketData.MarketId stored) (MarketData.endDate stored)
    (MarketData.EndDate stored).

Definition updateMarket (marketId : string) (normalized : NormalizedMarket.t)
    (existingMarket : MarketData.t) : M bool :=
  try_catch
    (let newProbability := parseFloat (NormalizedMarket.Price normalized) in
     let previousProbability := or_zero (MarketData.probability existingMarket) in
     let* _shock := ShockDetector.detectShock marketId previousProbability
                      newProbability in
     Firestore.getFirestore ;;;
     let* lastUpdated := Date_now in
     Firestore.market_update (MarketData.id existingMarket)
       (priceFields newProbability lastUpdated
          (MarketData.probability existingMarket)
          (sub newProbability previousProbability)) ;;;
     ret true)
    (fun _ => ret false).

(** The first defined one of the price fields the code probes. *)
Definition priceValue (gammaMarket : GammaMarket.t) : option number :=
  match GammaMarket.lastTradePrice gammaMarket with
  | Some v => Some v
  | None =>
  match GammaMarket.bestBid gammaMarket with
  | Some v => Some v
  | None =>
  match GammaMarket.price gammaMarket with
  | Some v => Some v
  | None =>
  match GammaMarket.yesPrice gammaMarket with
  | Some v => Some v
  | None =>
  match GammaMarket.yes_price gammaMarket with
  | Some v => Some v
  | None =>
  match GammaMarket.outcomePrices gammaMarket with
  | Some (v :: _) => Some v
  | _ => None
  end end end end end end.

(** [isNaN(p) || p < 0 || p > 1] and [!isNaN(p) && p >= 0 && p <= 1] *)
Definition invalid_price (p : number) : bool :=
  isNaN p || lt p zero || gt p (of_Z 1).

Definition valid_price (p : number) : bool :=
  negb (isNaN p) && ge p zero && le p (of_Z 1).

(** The [try] block of the loop: the price is taken from upstream, or from
    the stored record when upstream has none that is valid, and the
    record is updated.  Of [normalized] the update reads [Price] only; its
    other fields are filled from the declared fields of the two records
    (the probes of further undeclared upstream properties are left out). *)
Definition refreshMarket (marketId : string) (existingMarket : MarketData.t)
    (gammaMarket : GammaMarket.t) : M unit :=
  let priceNum := Number_opt (priceValue gammaMarket) in
  if invalid_price priceNum
     && negb (valid_price (MarketData.probability existingMarket))
  then ret tt
  else
    let finalPrice := if valid_price priceNum then priceNum
                      else or_zero (MarketData.probability existingMarket) in
    let normalized :=
      NormalizedMarket.mk marketId
        (default "Unknown Event"
           (first_truthy [GammaMarket.title gammaMarket;
                          MarketData.catalyst existingMarket;
                          Some (MarketData.title existingMarket)]))
        (default ""
           (first_truthy [GammaMarket.question gammaMarket;
                          MarketData.question existingMarket;
                          Some (MarketData.title existingMarket)]))
        (toFixed 2 finalPrice)
        (if volume_truthy (GammaMarket.volume gammaMarket)
         then volume_or_zero (GammaMarket.volume gammaMarket)
         else volume_or_zero (MarketData.volume existingMarket))
        (default ""
           (first_truthy [GammaMarket.endDate gammaMarket;
                          Some (MarketData.resolveDate existingMarket)]))
        (join_pipe (default [] (MarketData.tags existingMarket))) in
    let* updated := updateMarket (MarketData.id existingMarket) normalized
                      existingMarket in
    if updated then
      count_updated ;;;
      let newProb := parseFloat (NormalizedMarket.Price normalized) in
      let oldProb := or_zero (MarketData.probability existingMarket) in
      if ge (Math_abs (sub newProb oldProb)) (Fin (5 # 100))
      then count_shock else ret tt
    else count_error.

(** The body of the loop over the ids of the persisted markets. *)
Definition processMarket (existingMarketsByMarketId : gmap string MarketData.t)
    (marketsById : gmap string GammaMarket.t) (marketId : string) : M unit :=
  match existingMarketsByMarketId !! marketId with
  | None => ret tt
  | Some existingMarket =>
      if negb (nonempty (MarketData.id existingMarket)) then ret tt
      else
        let endDate :=
          first_truthy [Some (MarketData.resolveDate existingMarket);
                        MarketData.endDate existingMarket;
                        MarketData.EndDate existingMarket] in
        let* resolved :=
          isMarketResolved endDate (Some (MarketData.resolveDate existingMarket)) in
        if resolved then ret tt
        else
          match marketsById !! marketId with
          | None => ret tt
          | Some gammaMarket =>
              if flag (GammaMarket.closed gammaMarket)
                 || flag (GammaMarket.resolved gammaMarket)
              then ret tt
              else
                try_catch (refreshMarket marketId existingMarket gammaMarket)
                  (fun _ => count_error)
          end
  end.

Definition updateMarkets : M Counters.t :=
  modify (set_result (Counters.mk 0 0 0)) ;;;
  try_catch
    (ShockDetector.cleanupOldShocks ;;;
     let* existingMarketIds := getExistingMarketIds in
     if (List.length existingMarketIds =? 0)%nat then ret tt
     else
       Firestore.getFirestore ;;;
       let* snapshot := Firestore.markets_get None in
       let existingMarketsByMarketId :=
         fold_left
           (fun (m : gmap string MarketData.t) (doc : string * MarketData.t) =>
              let data := snd doc in
              match first_truthy [MarketData.MarketID data; MarketData.marketId data;
                                  MarketData.MarketId data] with
              | Some marketId => <[marketId := data]> m
              | None => m
              end)
           snapshot ∅ in
       let* gammaMarkets := fetchGammaMarkets in
       if (List.length gammaMarkets =? 0)%nat then ret tt
       else
         let marketsById :=
           fold_left
             (fun (m : gmap string GammaMarket.t) (market : GammaMarket.t) =>
                match GammaMarket.id market with
                | Some id => if nonempty id then <[id := market]> m else m
                | None => m
                end)
             gammaMarkets ∅ in
         MarketUpdater.for_each existingMarketIds
           (processMarket existingMarketsByMarketId marketsById) ;;;
         MarketUpdater.raiseAlert)
    (fun _ => count_error) ;;;
  get result.

End Dates.

End MarketUpdaterById.

(* ===================================================================== *)
(** ** App.tsx: the change tracking of the import *)
(* ===================================================================== *)

Module ImportPath.

(** [Number(x.toFixed(4))]; on what [toFixed] prints, [Number] and
    [parseFloat] read the same number. *)
Definition clean (x : number) : number := parseFloat (toFixed 4 x).

(** The "smart change detection" of [handleImportN8n]: from the record
    found in the local state (if any) and the imported probability, the
    [previousProbability] and the [changeDelta] that are written. *)
Definition smartChange (existingMarket : option MarketData.t)
    (probability : number) : option number * number :=
  let newProbability := or_zero probability in
  match existingMarket with
  | None => (None, clean zero)
  | Some existing =>
      let changeDelta := sub newProbability (or_zero (MarketData.probability existing)) in
      if gt (Math_abs changeDelta) (Fin (1 # 1000))
      then (Some (MarketData.probability existing), clean changeDelta)
      else (MarketData.previousProbability existing,
            clean (or_zero (default NaN (MarketData.changeDelta existing))))
  end.

End ImportPath.

(* ===================================================================== *)
(** ** Histories of the shock window *)
(* ===================================================================== *)

(** The calls that touch [recentShocks]. *)
Inductive ShockCall : Type :=
  | CallDetectShock (marketId : string) (previousProbability newProbability : number)
  | CallCheckShockAlert
  | CallCleanupOldShocks.

Definition run_call (c : ShockCall) (w : World) : World :=
  match c with
  | CallDetectShock marketId p n => snd (ShockDetector.detectShock marketId p n w)
  | CallCheckShockAlert => snd (ShockDetector.checkShockAlert w)
  | CallCleanupOldShocks => snd (ShockDetector.cleanupOldShocks w)
  end.

Definition run_calls (cs : list ShockCall) (w : World) : World :=
  fold_left (fun w c => run_call c w) cs w.

(** Equality of numbers as numbers: two fractions of the same value are
    the same number. *)
Definition num_eq (x y : number) : Prop :=
  match x, y with
  | NaN, NaN | NegInf, NegInf | PosInf, PosInf => True
  | Fin a, Fin b => a == b
  | _, _ => False
  end.

Definition opt_num_eq (x y : option number) : Prop :=
  match x, y with
  | Some a, Some b => num_eq a b
  | None, None => True
  | _, _ => False
  end.


(* ===================================================================== *)
(** ** Vocabulary of the statements *)
(* ===================================================================== *)

(** The invariant of the window: every shock is well formed, the
    timestamps do not decrease, and none lies in the future. *)
Definition well_formed_shock (s : MarketShock.t) : Prop :=
  MarketShock.delta s
    = Math_abs (sub (MarketShock.newProbability s) (MarketShock.previousProbability s))
  /\ ge (MarketShock.delta s) ShockDetector.SHOCK_THRESHOLD = true
  /\ ge (MarketShock.delta s) zero = true.

Definition window_invariant (w : World) : Prop :=
  Forall well_formed_shock (recentShocks w)
  /\ StronglySorted Z.le (List.map MarketShock.timestamp (recentShocks w))
  /\ Forall (fun s => MarketShock.timestamp s <= clock w) (recentShocks w).

(** A computation that never lets an exception out. *)
Definition never_throws {A} (m : M A) : Prop :=
  forall w, exists a, fst (m w) = Ok a.

(** A computation that keeps the world related, by [R], to the world it
    started in, whatever way it ends. *)
Definition preserves (R : World -> World -> Prop) {A} (m : M A) : Prop :=
  forall w, R w (snd (m w)).

(** The records of a cycle that have been accounted for: counted as
    updated or as an error. *)
Definition handled (w : World) : nat :=
  (Counters.updated (result w) + Counters.errors (result w))%nat.

(** The normalized markets that match a persisted record. *)
Definition matched (existingMarkets : gmap string MarketData.t)
    (l : list NormalizeById.NormalizedMarket.t) : nat :=
  List.length
    (List.filter
       (fun n => is_defined
                   (existingMarkets !! NormalizeById.NormalizedMarket.marketId n))
       l).

(** The world keeps its counters. *)
Definition same_result (w w' : World) : Prop := result w' = result w.

(** The descriptive fields of a record, and the documents of a
    collection with their descriptive fields only. *)
Definition descriptive (d : MarketData.t) :=
  (MarketData.title d, MarketData.question d, MarketData.catalyst d,
   MarketData.volume d, MarketData.tags d, MarketData.resolveDate d).

Definition described (docs : list (string * MarketData.t)) :=
  List.map (fun kd => (fst kd, descriptive (snd kd))) docs.

(** The world keeps the descriptive fields of every document. *)
Definition same_descriptions (w w' : World) : Prop :=
  described (markets w') = described (markets w).

(** Started in a world with [P], the computation ends, whatever way it
    ends, in a world with [Q]. *)
Definition hoare (P : World -> Prop) {A} (m : M A) (Q : World -> Prop) : Prop :=
  forall w, P w -> Q (snd (m w)).

(** The clock has not run backwards and the documents of the markets are
    the same. *)
Definition quiet (w w' : World) : Prop :=
  clock w <= clock w' /\ markets w' = markets w.

(** At a time not before [t0], the document [key] is [r]. *)
Definition holds_record (t0 : Z) (key : string) (r : MarketData.t) (w : World)
  : Prop :=
  t0 <= clock w /\ Firestore.lookup_doc key (markets w) = Some r.

(** The decision of [isMarketResolved] as a function of the time [now]
    at which it reads the clock. *)
Definition resolved_at (Date_parse : string -> option Z) (tz : Z) (now : Z)
    (endDate resolveDate : option string) : bool :=
  if negb (NormalizeCommon.opt_nonempty endDate)
     && negb (NormalizeCommon.opt_nonempty resolveDate) then false
  else
    match (if NormalizeCommon.opt_nonempty endDate then endDate else resolveDate) with
    | None => false
    | Some dateStr =>
        if negb (nonempty dateStr) then false
        else
          match MarketUpdaterById.parse_date Date_parse tz dateStr with
          | None => false
          | Some date =>
              if is_defined (MarketUpdaterById.plain_date dateStr)
              then MarketUpdaterById.local_midnight tz date
                   <? MarketUpdaterById.local_midnight tz now
              else date <? now
          end
    end.

(** The resolve date of a record is in the past at the time [now]: by
    the calendar day for a plain date, by the instant otherwise. *)
Definition past (Date_parse : string -> option Z) (tz : Z) (now : Z)
    (d : MarketData.t) : bool :=
  resolved_at Date_parse tz now (Some (MarketData.resolveDate d))
    (Some (MarketData.resolveDate d)).

(** Every document is stored under the id it carries, and no id is used
    twice. *)
Definition well_keyed (docs : list (string * MarketData.t)) : Prop :=
  (forall k d, In (k, d) docs -> MarketData.id d = k)
  /\ List.NoDup (List.map fst docs).


(** The volume of the market is a number (it is not NaN). *)
Definition numeric (m : GammaMarket.t) : Prop :=
  isNaN (NormalizeFiltered.volumeOf m) = false.

(** The smallest timestamp of a list of shocks. *)
Definition oldest_timestamp (l : list MarketShock.t) : option Z :=
  match List.map MarketShock.timestamp l with
  | [] => None
  | t :: r => Some (fold_left Z.min r t)
  end.

(** Renaming the markets of the shocks in the window, and of an alert. *)
Definition relabel_shock (f : string -> string) (s : MarketShock.t) : MarketShock.t :=
  MarketShock.mk (f (MarketShock.marketId s)) (MarketShock.previousProbability s)
    (MarketShock.newProbability s) (MarketShock.delta s) (MarketShock.timestamp s).

Definition relabel (f : string -> string) (w : World) : World :=
  set_recentShocks (List.map (relabel_shock f) (recentShocks w)) w.

Definition relabel_alert (f : string -> string) (a : MarketShockAlert.t)
  : MarketShockAlert.t :=
  MarketShockAlert.mk (MarketShockAlert.id a) (MarketShockAlert.shockCount a)
    (MarketShockAlert.windowStart a) (MarketShockAlert.windowEnd a)
    (List.map (relabel_shock f) (MarketShockAlert.shocks a))
    (MarketShockAlert.createdAt a).

(** The shocks of the window that [checkShockAlert], called in [w], finds
    within the last 15 minutes. *)
Definition qualifying (w : World) : list MarketShock.t :=
  List.filter
    (fun s => next_time w - ShockDetector.SHOCK_WINDOW_MS <=? MarketShock.timestamp s)
    (recentShocks w).

(* ===================================================================== *)
(** ** Concrete worlds and inputs used by the examples *)
(* ===================================================================== *)

Module Examples.

Definition no_counters : Counters.t := Counters.mk 0 0 0.

(** A world with nothing stored, at time [t], where [ds] is the time that
    passes before each of the coming readings of the clock. *)
Definition empty_world (t : Z) (ds : list N) : World :=
  mkWorld [] t ds false [] [] [] [] no_counters.

Definition shock_at (marketId : string) (t : Z) : MarketShock.t :=
  MarketShock.mk marketId (Fin (40 # 100)) (Fin (46 # 100)) (Fin (6 # 100)) t.

(** Five shocks of one and the same market between 5 and 1 minutes before
    the time 2000000. *)
Definition five_shocks : list MarketShock.t :=
  [shock_at "m1" 1700000; shock_at "m1" 1760000; shock_at "m1" 1820000;
   shock_at "m1" 1880000; shock_at "m1" 1940000].

Definition clustered_world : World :=
  set_recentShocks five_shocks (empty_world 2000000 []).

(** A history of the window: two shocks a second apart, a move too small
    to be one, an alert check, twenty minutes later a third shock, and a
    cleanup. *)
Definition history : list ShockCall :=
  [CallDetectShock "m1" (Fin (40 # 100)) (Fin (46 # 100));
   CallDetectShock "m2" (Fin (90 # 100)) (Fin (10 # 100));
   CallDetectShock "m3" (Fin (40 # 100)) (Fin (44 # 100));
   CallCheckShockAlert;
   CallDetectShock "m1" (Fin (46 # 100)) (Fin (20 # 100));
   CallCleanupOldShocks].

Definition history_world : World :=
  empty_world 1000000 [1000; 0; 1000; 0; 5; 1200000; 1; 60000]%N.

(** An open sub-market with the given id, volume and yes-price. *)
Definition market (id : string) (v : Volume) (p : Q) : GammaMarket.t :=
  GammaMarket.mk (Some id) (Some ("Will it happen? " ++ id)) (Some v)
    (Some "2030-06-30") (Some (Fin p)) None (Some false) (Some false)
    None None None None None None.

Definition event (l : list GammaMarket.t) : GammaEvent.t :=
  GammaEvent.mk (Some "e1") (Some "Fed decision")
    (Some [Tag.mk (Some "Economy") None; Tag.mk None (Some "US  Politics")])
    (Some l).

Definition known : gset string :=
  {[ "m1"; "m2"; "m3"; "m4"; "m5"; "m6"; "m7"; "m8" ]}.

(** A sub-market whose volume is a string that is not a number. *)
Definition unparseable : GammaMarket.t := market "m1" (VStr "N/A") (1 # 2).

(** Eight valid sub-markets with distinct volumes. *)
Definition eight : list GammaMarket.t :=
  [market "m1" (VNum (of_Z 23000)) (1 # 2);
   market "m2" (VStr "$28,000") (1 # 4);
   market "m3" (VNum (of_Z 21000)) (3 # 4);
   market "m4" (VNum (of_Z 26000)) (1 # 2);
   market "m5" (VStr "22,000.50") (1 # 10);
   market "m6" (VNum (of_Z 27000)) (9 # 10);
   market "m7" (VNum (of_Z 24000)) (1 # 2);
   market "m8" (VNum (of_Z 25000)) (1 # 3)].

(** A persisted record: the probability is 0.40, the last genuine change
    was from 0.30, by 0.10. *)
Definition stored_as (id resolveDate : string) : MarketData.t :=
  MarketData.mk id "Fed cuts rates in June?" resolveDate
    (Fin (40 # 100)) (Some (Fin (30 # 100))) (Some (Fin (10 # 100)))
    1700000000000 n8n (Some "FOMC") (Some "Will the Fed cut rates in June?")
    (Some (VStr "$1,250,000")) (Some ["economy"; "fed"])
    None (Some id) None None None None.

Definition stored : MarketData.t := stored_as "m1" "2030-06-30".

(** The same record with a resolve date long past. *)
Definition frozen : MarketData.t := stored_as "m1" "2020-01-01".

(** A world at the start of 2026 (in milliseconds since 1970) that holds
    the given documents and is answered by upstream with the given
    events; half a second passes before every reading of the clock. *)
Definition world_of (docs : list (string * MarketData.t))
    (events : list GammaEvent.t) (fs : list bool) : World :=
  mkWorld [] 1767225600000 (repeat 500%N 40) false docs [] events fs no_counters.

(** What the normalizer hands to [updateMarket] when upstream reports
    the price the store already has; the descriptive fields are those of
    upstream. *)
Definition same_price : NormalizeById.NormalizedMarket.t :=
  NormalizeById.NormalizedMarket.mk "m1" "Fed decision" "Fed rate cut in June?"
    "0.40" (VNum (of_Z 50000)) "2030-07-01" "economy|us_politics".

(** Upstream reports 0.60 for the market [id]. *)
Definition moved (id : string) : GammaMarket.t :=
  market id (VNum (of_Z 50000)) (60 # 100).

(** Five persisted records, all matched by upstream. *)
Definition five_docs : list (string * MarketData.t) :=
  List.map (fun id => (id, stored_as id "2030-06-30")) ["m1"; "m2"; "m3"; "m4"; "m5"].

Definition five_moved : list GammaEvent.t :=
  [event (List.map moved ["m1"; "m2"; "m3"; "m4"; "m5"])].

End Examples.

(* ===================================================================== *)
(** * Properties *)
(* ===================================================================== *)

Local Open Scope list_scope.

(** ** Numbers *)

Lemma ge_threshold_nonneg (d : number) :
  ge d ShockDetector.SHOCK_THRESHOLD = true -> ge d zero = true.
Proof.
  destruct d as [| | |q]; cbn; try easy.
  rewrite !Qle_bool_iff. intros H.
  apply Qle_trans with (y := 5 # 100); [easy | exact H].
Qed.


Lemma le_false_gt (x y : number) :
  isNaN x = false -> isNaN y = false -> le x y = false -> gt x y = true.
Proof.
  destruct x as [| | |a], y as [| | |b]; cbn; try easy. now intros _ _ ->.
Qed.

Lemma ge_false_lt (x y : number) :
  isNaN x = false -> isNaN y = false -> ge x y = false -> lt x y = true.
Proof.
  destruct x as [| | |a], y as [| | |b]; cbn; try easy. now intros _ _ ->.
Qed.

Lemma le_negb_gt (x y : number) :
  isNaN x = false -> isNaN y = false -> le x y = negb (gt x y).
Proof.
  destruct x as [| | |a], y as [| | |b]; cbn; try easy.
  intros _ _. now rewrite negb_involutive.
Qed.

Lemma lt_negb_ge (x y : number) :
  isNaN x = false -> isNaN y = false -> lt x y = negb (ge x y).
Proof.
  destruct x as [| | |a], y as [| | |b]; cbn; try easy.
Qed.

Lemma or_zero_not_NaN (x : number) : isNaN (or_zero x) = false.
Proof.
  unfold or_zero. destruct x as [| | |q]; cbn; try reflexivity.
  now destruct (negb (Qeq_bool q 0)).
Qed.

(** ** The clock *)

Lemma clock_advance (w : World) : clock w <= clock (advance w).
Proof. cbn. unfold next_time. lia. Qed.

Lemma clock_next_time (w : World) : clock w <= next_time w.
Proof. unfold next_time. lia. Qed.

Lemma recentShocks_advance (w : World) : recentShocks (advance w) = recentShocks w.
Proof. reflexivity. Qed.

(** ** The shock window *)

Section ShockWindow.
Import ShockDetector.

Lemma shift_older_suffix (cutoff : Z) (a : list MarketShock.t) :
  exists removed, a = removed ++ shift_older cutoff a.
Proof.
  induction a as [|s r IH]; cbn.
  - exists []. reflexivity.
  - destruct (MarketShock.timestamp s <? cutoff).
    + destruct IH as [pre IH]. exists (s :: pre). cbn. now f_equal.
    + exists []. reflexivity.
Qed.

Lemma shift_older_Forall (P : MarketShock.t -> Prop) cutoff a :
  Forall P a -> Forall P (shift_older cutoff a).
Proof.
  intros H. destruct (shift_older_suffix cutoff a) as [pre E].
  rewrite E in H. now apply Forall_app in H.
Qed.

Lemma StronglySorted_app_r {A} (R : A -> A -> Prop) (l1 l2 : list A) :
  StronglySorted R (l1 ++ l2) -> StronglySorted R l2.
Proof.
  induction l1 as [|x l1 IH]; cbn; [easy|].
  intros H. apply StronglySorted_inv in H. tauto.
Qed.

Lemma shift_older_sorted cutoff a :
  StronglySorted Z.le (List.map MarketShock.timestamp a) ->
  StronglySorted Z.le (List.map MarketShock.timestamp (shift_older cutoff a)).
Proof.
  intros H. destruct (shift_older_suffix cutoff a) as [pre E].
  rewrite E, List.map_app in H. now apply StronglySorted_app_r in H.
Qed.

Lemma StronglySorted_snoc (l : list Z) (x : Z) :
  StronglySorted Z.le l -> Forall (fun y => y <= x) l ->
  StronglySorted Z.le (l ++ [x]).
Proof.
  induction l as [|y l IH]; cbn; intros Hs Hb.
  - constructor; constructor.
  - apply StronglySorted_inv in Hs. destruct Hs as [Hs Hy].
    apply Forall_cons_iff in Hb. destruct Hb as [Hyx Hb].
    constructor; [now apply IH|].
    apply Forall_app. split; [exact Hy|]. constructor; [exact Hyx | constructor].
Qed.

(** What [detectShock] computes, with the monad unfolded. *)
Lemma detectShock_run marketId previous new w :
  detectShock marketId previous new w =
  let delta := Math_abs (sub new previous) in
  if ge delta SHOCK_THRESHOLD then
    let shock := MarketShock.mk marketId previous new delta (next_time w) in
    let w1 := advance w in
    (Ok (Some shock),
     set_recentShocks
       (shift_older (next_time w1 - SHOCK_WINDOW_MS) (recentShocks w ++ [shock]))
       (advance (set_recentShocks (recentShocks w ++ [shock]) w1)))
  else (Ok None, w).
Proof.
  unfold detectShock. cbv zeta.
  destruct (ge (Math_abs (sub new previous)) SHOCK_THRESHOLD); reflexivity.
Qed.

(** What [checkShockAlert] computes, with the monad unfolded. *)
Lemma checkShockAlert_run w :
  checkShockAlert w =
  let windowStart := next_time w - SHOCK_WINDOW_MS in
  let windowShocks :=
    List.filter (fun s => windowStart <=? MarketShock.timestamp s) (recentShocks w) in
  let w1 := advance w in
  let w2 := advance w1 in
  let w3 := advance w2 in
  if (SHOCK_COUNT_THRESHOLD <=? List.length windowShocks)%nat then
    (Ok (Some (MarketShockAlert.mk ("shock-" ++ string_of_Z (next_time w1))%string
                 (List.length windowShocks) windowStart (next_time w2)
                 windowShocks (next_time w3))),
     advance w3)
  else (Ok None, w1).
Proof.
  unfold checkShockAlert, bind, get, Date_now. cbv zeta.
  rewrite recentShocks_advance.
  destruct (SHOCK_COUNT_THRESHOLD <=? _)%nat; reflexivity.
Qed.

Lemma cleanupOldShocks_run w :
  cleanupOldShocks w =
  (Ok tt, set_recentShocks
            (shift_older (next_time w - SHOCK_WINDOW_MS * 2) (recentShocks w))
            (advance w)).
Proof. reflexivity. Qed.

Lemma window_invariant_advance w :
  window_invariant w -> window_invariant (advance w).
Proof.
  intros (Hw & Hs & Hb). repeat split; try assumption.
  pose proof (clock_advance w) as Hc.
  eapply List.Forall_impl; [|exact Hb]. cbn beta. intros s Hs'.
  cbn in *. unfold next_time in *. lia.
Qed.

Lemma window_invariant_shift cutoff w :
  window_invariant w ->
  window_invariant (set_recentShocks (shift_older cutoff (recentShocks w)) w).
Proof.
  intros (Hw & Hs & Hb). repeat split; cbn.
  - now apply shift_older_Forall.
  - now apply shift_older_sorted.
  - now apply shift_older_Forall.
Qed.

Lemma window_invariant_call (c : ShockCall) (w : World) :
  window_invariant w -> window_invariant (run_call c w).
Proof.
  intros Hinv. destruct c as [marketId p n | |]; cbn [run_call].
  - rewrite detectShock_run. cbv zeta.
    destruct (ge (Math_abs (sub n p)) SHOCK_THRESHOLD) eqn:Hge; cbn [snd]; [|exact Hinv].
    set (shock := MarketShock.mk marketId p n _ _).
    assert (Hpush : window_invariant
                      (set_recentShocks (recentShocks w ++ [shock]) (advance w))).
    { apply window_invariant_advance in Hinv. destruct Hinv as (Hw & Hs & Hb).
      repeat split; cbn [recentShocks set_recentShocks clock].
      - apply Forall_app. split; [exact Hw|]. constructor; [|constructor].
        repeat split; cbn; [exact Hge | now apply ge_threshold_nonneg].
      - rewrite List.map_app. apply StronglySorted_snoc; [exact Hs|].
        apply Forall_map. exact Hb.
      - apply Forall_app. split; [exact Hb|]. constructor; [|constructor].
        cbn. lia. }
    apply window_invariant_advance in Hpush.
    apply (window_invariant_shift (next_time (advance w) - SHOCK_WINDOW_MS)) in Hpush.
    exact Hpush.
  - rewrite checkShockAlert_run. cbv zeta.
    destruct (SHOCK_COUNT_THRESHOLD <=? _)%nat; cbn [snd];
      repeat apply window_invariant_advance; exact Hinv.
  - rewrite cleanupOldShocks_run. cbn [snd].
    apply window_invariant_advance in Hinv.
    now apply (window_invariant_shift (next_time w - SHOCK_WINDOW_MS * 2)) in Hinv.
Qed.

Lemma window_invariant_calls (cs : list ShockCall) (w : World) :
  window_invariant w -> window_invariant (run_calls cs w).
Proof.
  revert w. induction cs as [|c cs IH]; intros w H; cbn; [exact H|].
  apply IH. now apply window_invariant_call.
Qed.

End ShockWindow.

(** ** Claims about the shock detector *)

Section ShockClaims.
Import ShockDetector.


(** C9.  Starting from the empty window, after any sequence of calls of
    [detectShock], [checkShockAlert] and [cleanupOldShocks] every retained
    shock has [delta = |newProbability - previousProbability|], with
    [delta >= 0.05] and so [delta >= 0], and the timestamps of the window
    do not decrease from front to back. *)
Theorem shock_window_invariant :
  forall (calls : list ShockCall) (w0 : World),
    recentShocks w0 = [] ->
    let retained := recentShocks (run_calls calls w0) in
    Forall
      (fun s =>
         MarketShock.delta s
           = Math_abs (sub (MarketShock.newProbability s)
                           (MarketShock.previousProbability s))
         /\ ge (MarketShock.delta s) SHOCK_THRESHOLD = true
         /\ ge (MarketShock.delta s) zero = true)
      retained
    /\ StronglySorted Z.le (List.map MarketShock.timestamp retained).
Proof.
  intros calls w0 Hempty retained.
  assert (H0 : window_invariant w0).
  { unfold window_invariant. rewrite Hempty. repeat split; constructor. }
  apply (window_invariant_calls calls) in H0.
  destruct H0 as (Hw & Hs & _). split; assumption.
Qed.


Lemma shock_window_invariant_witness :
  recentShocks Examples.history_world = []
  /\ List.length (recentShocks (run_calls Examples.history Examples.history_world))
     = 1%nat
  /\ StronglySorted Z.le
       (List.map MarketShock.timestamp
          (recentShocks (run_calls Examples.history Examples.history_world))).
Proof.
  split; [reflexivity|]. split; [reflexivity|].
  apply (shock_window_invariant Examples.history Examples.history_world).
  reflexivity.
Defined.

(** C4, as the code has it.  [checkShockAlert] returns an alert exactly
    when at least 5 retained shocks have a timestamp within the 15 minutes
    before the time of the check.  The alert counts these shocks and lists
    them; its window starts 15 minutes before the time of the check (not at
    the oldest of the shocks) and ends at a reading of the clock taken
    while the alert is built, so not before the check.  The call never
    fails and leaves the window as it was. *)
Theorem checkShockAlert_window :
  forall (w : World),
    let now := next_time w in
    let out := checkShockAlert w in
    ((exists a, fst out = Ok (Some a))
       <-> (SHOCK_COUNT_THRESHOLD <= List.length (qualifying w))%nat)
    /\ (forall a, fst out = Ok (Some a) ->
          MarketShockAlert.shockCount a = List.length (qualifying w)
          /\ MarketShockAlert.shocks a = qualifying w
          /\ MarketShockAlert.windowStart a = now - SHOCK_WINDOW_MS
          /\ MarketShockAlert.windowEnd a = next_time (advance (advance w))
          /\ now <= MarketShockAlert.windowEnd a)
    /\ ((List.length (qualifying w) < SHOCK_COUNT_THRESHOLD)%nat -> fst out = Ok None)
    /\ recentShocks (snd out) = recentShocks w.
Proof.
  intros w now out. unfold out. rewrite checkShockAlert_run. cbv zeta.
  fold (qualifying w).
  destruct (SHOCK_COUNT_THRESHOLD <=? List.length (qualifying w))%nat eqn:Hc;
    cbn [fst snd].
  - apply Nat.leb_le in Hc. split; [|split; [|split]].
    + split; [intros _; exact Hc | intros _; eexists; reflexivity].
    + intros a Ha. injection Ha as <-. cbn.
      repeat split; try reflexivity.
      pose proof (clock_advance (advance w)) as H1.
      pose proof (clock_next_time (advance (advance w))) as H2.
      change (clock (advance w)) with (next_time w) in H1.
      unfold now. lia.
    + intros Hlt. unfold SHOCK_COUNT_THRESHOLD in *. lia.
    + reflexivity.
  - apply Nat.leb_gt in Hc. split; [|split; [|split]].
    + split; [intros [a Ha]; discriminate
             | intros Hle; unfold SHOCK_COUNT_THRESHOLD in *; lia].
    + intros a Ha. discriminate.
    + reflexivity.
    + reflexivity.
Qed.

Lemma checkShockAlert_window_witness :
  (SHOCK_COUNT_THRESHOLD <= List.length (qualifying Examples.clustered_world))%nat
  /\ exists a, fst (checkShockAlert Examples.clustered_world) = Ok (Some a).
Proof.
  split; [apply Nat.leb_le; reflexivity|].
  apply (checkShockAlert_window Examples.clustered_world).
  apply Nat.leb_le. reflexivity.
Defined.

(** C4, as the specification words it, fails: with five shocks between 5
    and 1 minutes old the alert's window does not start at the oldest of
    them (1700000) but 15 minutes before the check (1100000). *)
Lemma checkShockAlert_windowStart_not_oldest :
  ~ (forall a, fst (checkShockAlert Examples.clustered_world) = Ok (Some a) ->
       Some (MarketShockAlert.windowStart a)
       = oldest_timestamp (MarketShockAlert.shocks a)).
Proof.
  intros H. specialize (H _ eq_refl). discriminate H.
Qed.

Lemma relabel_qualifying (f : string -> string) (w : World) :
  qualifying (relabel f w) = List.map (relabel_shock f) (qualifying w).
Proof.
  unfold qualifying, relabel. cbn [recentShocks set_recentShocks].
  change (next_time (set_recentShocks _ w)) with (next_time w).
  induction (recentShocks w) as [|s l IH]; cbn; [reflexivity|].
  destruct (_ <=? _); cbn; now rewrite IH.
Qed.

(** C10.  The alert counts shocks, not markets.  Five shocks of one and
    the same market within the window are enough for an alert with
    [shockCount = 5]; and renaming the markets of the shocks in any way
    (so also merging or separating them) changes neither whether
    [checkShockAlert] alerts nor anything of the alert but the names. *)
Theorem alert_counts_events_not_markets :
  forall (w : World) (marketId : string) (f : string -> string),
    (List.length (recentShocks w) = 5%nat ->
     Forall (fun s => MarketShock.marketId s = marketId
                      /\ next_time w - SHOCK_WINDOW_MS <= MarketShock.timestamp s)
            (recentShocks w) ->
     exists a, fst (checkShockAlert w) = Ok (Some a)
               /\ MarketShockAlert.shockCount a = 5%nat
               /\ MarketShockAlert.shocks a = recentShocks w)
    /\ fst (checkShockAlert (relabel f w))
       = match fst (checkShockAlert w) with
         | Ok (Some a) => Ok (Some (relabel_alert f a))
         | other => other
         end.
Proof.
  intros w marketId f. split.
  - intros Hlen Hall.
    assert (Hq : qualifying w = recentShocks w).
    { unfold qualifying. apply forallb_filter_id. apply forallb_forall.
      rewrite List.Forall_forall in Hall. intros s Hs.
      apply Z.leb_le. now apply Hall. }
    rewrite checkShockAlert_run. cbv zeta. fold (qualifying w).
    rewrite Hq, Hlen. cbn [fst Nat.leb SHOCK_COUNT_THRESHOLD].
    eexists. split; [reflexivity|]. cbn. auto.
  - rewrite !checkShockAlert_run. cbv zeta.
    fold (qualifying w). fold (qualifying (relabel f w)).
    rewrite relabel_qualifying, List.length_map.
    destruct (SHOCK_COUNT_THRESHOLD <=? List.length (qualifying w))%nat;
      reflexivity.
Qed.

Lemma alert_counts_events_not_markets_witness :
  List.length (recentShocks Examples.clustered_world) = 5%nat
  /\ exists a, fst (checkShockAlert Examples.clustered_world) = Ok (Some a)
               /\ MarketShockAlert.shockCount a = 5%nat
               /\ MarketShockAlert.shocks a = recentShocks Examples.clustered_world.
Proof.
  split; [reflexivity|].
  apply (alert_counts_events_not_markets Examples.clustered_world "m1" id).
  - reflexivity.
  - change (recentShocks Examples.clustered_world) with Examples.five_shocks.
    unfold Examples.five_shocks.
    repeat (apply List.Forall_cons;
              [split; [reflexivity | apply Z.leb_le; reflexivity]|]).
    apply List.Forall_nil.
Defined.

End ShockClaims.

(** ** The filter and the ranking of the normalizer *)

Section Ranking.
Import NormalizeCommon NormalizeFiltered.





Lemma insert_by_perm (x : GammaMarket.t) (l : list GammaMarket.t) :
  Permutation (x :: l) (insert_by byVolumeDesc x l).
Proof.
  induction l as [|y r IH]; cbn [insert_by]; [reflexivity|].
  destruct (gt (byVolumeDesc x y) zero); [|reflexivity].
  rewrite perm_swap. now apply perm_skip.
Qed.

Lemma sort_by_perm (l : list GammaMarket.t) :
  Permutation l (sort_by byVolumeDesc l).
Proof.
  induction l as [|x r IH]; cbn [sort_by]; [reflexivity|].
  rewrite <- insert_by_perm. now apply perm_skip.
Qed.





(** Every market the filter keeps passes each of its four rules, as the
    code tests them. *)
Lemma keep_sound (existingMarketIds : gset string) (market : GammaMarket.t) :
  keep existingMarketIds market = true ->
  lt (volumeOf market) (of_Z 20000) = false
  /\ flag (GammaMarket.closed market) = false
  /\ flag (GammaMarket.resolved market) = false
  /\ (let yesPrice := or_zero (Number_opt (GammaMarket.yesPrice market)) in
      gt yesPrice (Fin (1 # 100)) = true /\ lt yesPrice (Fin (99 # 100)) = true)
  /\ exists marketId, GammaMarket.id market = Some marketId
                      /\ marketId ∈ existingMarketIds.
Proof.
  unfold keep.
  destruct (lt (volumeOf market) (of_Z 20000)); [easy|].
  destruct (flag (GammaMarket.closed market)); [easy|].
  destruct (flag (GammaMarket.resolved market)); [easy|]. cbn [orb].
  set (p := or_zero _).
  destruct (le p (Fin (1 # 100))) eqn:Hlo; [easy|].
  destruct (ge p (Fin (99 # 100))) eqn:Hhi; [easy|]. cbn [orb].
  destruct (GammaMarket.id market) as [marketId|]; [|easy].
  destruct (nonempty marketId); [|easy]. cbn [negb orb].
  destruct (bool_decide (marketId ∈ existingMarketIds)) eqn:Hin; [|easy].
  intros _.
  assert (Hp : isNaN p = false) by apply or_zero_not_NaN.
  split; [reflexivity|]. split; [reflexivity|]. split; [reflexivity|].
  split; [split|].
  - now apply le_false_gt.
  - now apply ge_false_lt.
  - exists marketId. split; [reflexivity|]. now apply bool_decide_eq_true in Hin.
Qed.

(** When the volume is a number the filter keeps exactly the markets
    with [volume >= 20000], not closed, not resolved, a price strictly
    between 0.01 and 0.99 and a known id. *)
Lemma keep_iff_numeric (existingMarketIds : gset string) (market : GammaMarket.t) :
  numeric market ->
  keep existingMarketIds market = true <->
  ge (volumeOf market) (of_Z 20000) = true
  /\ flag (GammaMarket.closed market) = false
  /\ flag (GammaMarket.resolved market) = false
  /\ (let yesPrice := or_zero (Number_opt (GammaMarket.yesPrice market)) in
      gt yesPrice (Fin (1 # 100)) = true /\ lt yesPrice (Fin (99 # 100)) = true)
  /\ exists marketId, GammaMarket.id market = Some marketId
                      /\ nonempty marketId = true
                      /\ marketId ∈ existingMarketIds.
Proof.
  intros Hnum. unfold numeric in Hnum. unfold keep. cbv zeta.
  set (p := or_zero _). set (v := volumeOf market) in *.
  assert (Hp : isNaN p = false) by apply or_zero_not_NaN.
  assert (Hv : lt v (of_Z 20000) = negb (ge v (of_Z 20000)))
    by now apply lt_negb_ge.
  assert (Hlo : le p (Fin (1 # 100)) = negb (gt p (Fin (1 # 100))))
    by now apply le_negb_gt.
  assert (Hhi : ge p (Fin (99 # 100)) = negb (lt p (Fin (99 # 100)))).
  { unfold ge. rewrite le_negb_gt by easy. reflexivity. }
  rewrite Hv, Hlo, Hhi.
  destruct (ge v (of_Z 20000)); cbn [negb]; [|split; [easy | intros [? _]; easy]].
  destruct (flag (GammaMarket.closed market)); cbn [orb];
    [split; [easy | intros (_ & ? & _); easy]|].
  destruct (flag (GammaMarket.resolved market)); cbn [orb];
    [split; [easy | intros (_ & _ & ? & _); easy]|].
  destruct (gt p (Fin (1 # 100))); cbn [negb orb];
    [|split; [easy | intros (_ & _ & _ & [? _] & _); easy]].
  destruct (lt p (Fin (99 # 100))); cbn [negb orb];
    [|split; [easy | intros (_ & _ & _ & [_ ?] & _); easy]].
  destruct (GammaMarket.id market) as [marketId|];
    [|split; [easy | intros (_ & _ & _ & _ & (? & ? & _)); easy]].
  destruct (nonempty marketId) eqn:Hne; cbn [negb orb].
  - destruct (bool_decide (marketId ∈ existingMarketIds)) eqn:Hin; cbn [negb].
    + apply bool_decide_eq_true in Hin. split; [|easy]. intros _.
      repeat split; try reflexivity. exists marketId. auto.
    + apply bool_decide_eq_false in Hin. split; [easy|].
      intros (_ & _ & _ & _ & (i & Hi & _ & Hi')). injection Hi as <-. contradiction.
  - split; [easy|].
    intros (_ & _ & _ & _ & (i & Hi & Hi' & _)). injection Hi as <-. congruence.
Qed.

Lemma validMarkets_kept (existingMarketIds : gset string)
    (markets : list GammaMarket.t) (market : GammaMarket.t) :
  In market (validMarkets existingMarketIds markets) ->
  In market markets /\ keep existingMarketIds market = true.
Proof.
  unfold validMarkets. intros H.
  assert (H' : In market (sort_by byVolumeDesc
                            (List.filter (keep existingMarketIds) markets))).
  { rewrite <- (firstn_skipn 5). apply in_or_app. now left. }
  clear H. rename H' into H.
  apply (Permutation_in _ (Permutation_sym (sort_by_perm _))) in H.
  now apply filter_In in H.
Qed.

End Ranking.

(** ** Claims about the normalizer *)

Section NormalizerClaims.
Import NormalizeCommon NormalizeFiltered.

(** The three examples of the filter rule. *)
Lemma keep_examples :
  keep Examples.known (Examples.market "m1" (VNum (of_Z 19999)) (1 # 2)) = false
  /\ keep Examples.known (Examples.market "m1" (VNum (of_Z 20000)) (1 # 100)) = false
  /\ keep Examples.known (Examples.market "m1" (VNum (of_Z 20000)) (1 # 2)) = true.
Proof.
  split; [vm_compute; reflexivity|]. split; vm_compute; reflexivity.
Qed.

(** C3, where the code departs from it.  A sub-market whose volume is a
    string that does not parse to a number (here ["N/A"]), open, with the
    price 0.5 and a known id: its parsed volume is NaN, which is not at
    least 20000, and still the filter keeps it and the normalizer returns
    it.  (For a numeric volume the code writes [Number(volume) || 0]; the
    branch for strings has no such fallback, and [NaN < 20000] is false.) *)
Theorem normalizeGammaEvent_keeps_unparseable_volume :
  volumeOf Examples.unparseable = NaN
  /\ ge (volumeOf Examples.unparseable) (of_Z 20000) = false
  /\ keep Examples.known Examples.unparseable = true
  /\ validMarkets Examples.known [Examples.unparseable] = [Examples.unparseable]
  /\ List.length
       (normalizeGammaEvent (Examples.event [Examples.unparseable]) Examples.known)
     = 1%nat.
Proof.
  repeat match goal with |- _ /\ _ => split end; vm_compute; reflexivity.
Qed.

(** The other variant of normalize.ts, the one marketUpdater.ts runs on,
    has no filter on volume, status or price band: the first two examples
    of the rule (volume 19999 with price 0.5, volume 20000 with price
    0.01) are both returned. *)
Lemma normalizeGammaEvent_by_id_has_no_filter :
  List.map NormalizeById.NormalizedMarket.Price
    (NormalizeById.normalizeGammaEvent
       (Examples.event
          [Examples.market "m1" (VNum (of_Z 19999)) (1 # 2);
           Examples.market "m2" (VNum (of_Z 20000)) (1 # 100)])
       Examples.known)
  = ["0.50"; "0.01"].
Proof. vm_compute. reflexivity. Qed.



(** Without that proviso the order can fail: a sub-market with the
    volume ["N/A"] between two others stops the 50000 from moving ahead
    of the 30000. *)
Lemma unparseable_volume_breaks_the_order :
  List.map volumeOf
    (validMarkets Examples.known
       [Examples.market "m1" (VNum (of_Z 30000)) (1 # 2);
        Examples.market "m2" (VStr "N/A") (1 # 2);
        Examples.market "m3" (VNum (of_Z 50000)) (1 # 2)])
  = [of_Z 30000; NaN; of_Z 50000].
Proof. vm_compute. reflexivity. Qed.

(** The example of the cap: of eight valid sub-markets with distinct
    volumes the five with the highest volume are returned, highest first. *)
Lemma top_five_of_eight :
  List.map GammaMarket.id (validMarkets Examples.known Examples.eight)
  = [Some "m2"; Some "m6"; Some "m4"; Some "m8"; Some "m7"]
  /\ List.map NormalizedMarket.Volume
       (normalizeGammaEvent (Examples.event Examples.eight) Examples.known)
     = [VStr "$28,000"; VNum (of_Z 27000); VNum (of_Z 26000); VNum (of_Z 25000);
        VNum (of_Z 24000)].
Proof. split; vm_compute; reflexivity. Qed.

End NormalizerClaims.

(** ** Reasoning about computations *)

Section Computations.

Lemma never_throws_ret {A} (a : A) : never_throws (ret a).
Proof. intros w. now exists a. Qed.

Lemma never_throws_get {A} (f : World -> A) : never_throws (get f).
Proof. intros w. now exists (f w). Qed.

Lemma never_throws_modify (f : World -> World) : never_throws (modify f).
Proof. intros w. now exists tt. Qed.

Lemma never_throws_bind {A B} (m : M A) (k : A -> M B) :
  never_throws m -> (forall a, never_throws (k a)) -> never_throws (bind m k).
Proof.
  intros Hm Hk w. unfold bind. destruct (Hm w) as [a Ha].
  destruct (m w) as [[a'|e] w1]; cbn in Ha; [|discriminate].
  apply Hk.
Qed.

Lemma never_throws_try_catch {A} (m : M A) (h : string -> M A) :
  (forall e, never_throws (h e)) -> never_throws (try_catch m h).
Proof.
  intros Hh w. unfold try_catch. destruct (m w) as [[a|e] w1].
  - now exists a.
  - apply Hh.
Qed.

Lemma never_throws_for_of {A S} (l : list A) (body : A -> S -> M S) (s : S) :
  (forall x s', never_throws (body x s')) -> never_throws (for_of l body s).
Proof.
  intros Hb. revert s. induction l as [|x r IH]; intros s; cbn [for_of].
  - apply never_throws_ret.
  - apply never_throws_bind; [apply Hb | intros s'; apply IH].
Qed.

(** A computation that never throws runs to a value. *)
Lemma never_throws_run {A} (m : M A) (w : World) :
  never_throws m -> exists a w', m w = (Ok a, w').
Proof.
  intros H. destruct (H w) as [a Ha]. destruct (m w) as [o w'] eqn:E.
  cbn in Ha. subst o. now exists a, w'.
Qed.

Section Preservation.
Context (R : World -> World -> Prop) `{!Reflexive R} `{!Transitive R}.

Lemma preserves_ret {A} (a : A) : preserves R (ret a).
Proof. intros w. cbn. reflexivity. Qed.

Lemma preserves_get {A} (f : World -> A) : preserves R (get f).
Proof. intros w. cbn. reflexivity. Qed.

Lemma preserves_throw {A} (e : string) : preserves R (@throw A e).
Proof. intros w. cbn. reflexivity. Qed.

Lemma preserves_bind {A B} (m : M A) (k : A -> M B) :
  preserves R m -> (forall a, preserves R (k a)) -> preserves R (bind m k).
Proof.
  intros Hm Hk w. unfold bind. specialize (Hm w).
  destruct (m w) as [[a|e] w1]; cbn [snd] in *; [|exact Hm].
  etransitivity; [exact Hm | apply Hk].
Qed.

Lemma preserves_try_catch {A} (m : M A) (h : string -> M A) :
  preserves R m -> (forall e, preserves R (h e)) -> preserves R (try_catch m h).
Proof.
  intros Hm Hh w. unfold try_catch. specialize (Hm w).
  destruct (m w) as [[a|e] w1]; cbn [snd] in *; [exact Hm|].
  etransitivity; [exact Hm | apply Hh].
Qed.

Lemma preserves_for_of {A S} (l : list A) (body : A -> S -> M S) (s : S) :
  (forall x s', preserves R (body x s')) -> preserves R (for_of l body s).
Proof.
  intros Hb. revert s. induction l as [|x r IH]; intros s; cbn [for_of].
  - apply preserves_ret.
  - apply preserves_bind; [apply Hb | intros s'; apply IH].
Qed.

Lemma preserves_modify (f : World -> World) :
  (forall w, R w (f w)) -> preserves R (modify f).
Proof. intros H w. apply H. Qed.

End Preservation.

End Computations.

(** ** The counters of a cycle *)

Section CountersFrame.
Import ShockDetector Firestore.

#[local] Instance same_result_refl : Reflexive same_result.
Proof. intros w. reflexivity. Qed.

#[local] Instance same_result_trans : Transitive same_result.
Proof. intros a b c H1 H2. unfold same_result in *. congruence. Qed.

Ltac frame_step :=
  first
    [ apply preserves_ret; typeclasses eauto
    | apply preserves_get; typeclasses eauto
    | apply preserves_throw; typeclasses eauto
    | apply preserves_modify; intros ?; reflexivity
    | apply preserves_bind; try typeclasses eauto
    | apply preserves_try_catch; try typeclasses eauto ].

Lemma Date_now_same_result : preserves same_result Date_now.
Proof. intros w. reflexivity. Qed.

Lemma storage_call_same_result what : preserves same_result (storage_call what).
Proof. intros w. unfold storage_call. destruct (faults w) as [|[] fs]; reflexivity. Qed.

Lemma detectShock_same_result marketId p n :
  preserves same_result (detectShock marketId p n).
Proof.
  intros w. rewrite detectShock_run. cbv zeta.
  destruct (ge _ _); reflexivity.
Qed.

Lemma getFirestore_same_result : preserves same_result getFirestore.
Proof.
  unfold getFirestore. frame_step; [frame_step|].
  intros [|]; [frame_step|].
  frame_step; [|intros e; frame_step].
  frame_step; [apply storage_call_same_result | intros _; frame_step].
Qed.

Lemma market_set_merge_same_result key defined obj :
  preserves same_result (market_set_merge key defined obj).
Proof.
  unfold market_set_merge. destruct defined; [|frame_step].
  frame_step; [apply storage_call_same_result | intros _; frame_step].
Qed.

Lemma updateMarket_same_result marketId normalized existingMarket :
  preserves same_result (MarketUpdater.updateMarket marketId normalized existingMarket).
Proof.
  unfold MarketUpdater.updateMarket. frame_step; [|intros e; frame_step].
  frame_step; [apply detectShock_same_result|]. intros _shock.
  frame_step; [apply getFirestore_same_result|]. intros _.
  frame_step; [apply Date_now_same_result|]. intros lastUpdated.
  destruct (MarketUpdater.updatedDocument _ _ _ _ _) as [defined document].
  frame_step; [apply market_set_merge_same_result | intros _; frame_step].
Qed.

Lemma getFirestore_ready (w : World) : db w = true -> getFirestore w = (Ok tt, w).
Proof. intros H. unfold getFirestore, bind, get. now rewrite H. Qed.

Lemma market_set_merge_fails key defined obj (w : World) fs :
  faults w = true :: fs ->
  exists e w',
    market_set_merge key defined obj w = (Throw e, w') /\ result w' = result w.
Proof.
  intros H. unfold market_set_merge, bind, storage_call, throw.
  destruct defined; [rewrite H|]; eexists _, _; split; reflexivity.
Qed.

Lemma detectShock_storage marketId p n (w : World) :
  exists o w1,
    detectShock marketId p n w = (Ok o, w1)
    /\ db w1 = db w /\ faults w1 = faults w /\ result w1 = result w.
Proof.
  rewrite detectShock_run. cbv zeta.
  destruct (ge _ _); eexists _, _; repeat split; reflexivity.
Qed.

(** When the handle is there and the write throws, [updateMarket]
    answers [false]. *)
Lemma updateMarket_write_fails marketId normalized existingMarket w fs :
  db w = true -> faults w = true :: fs ->
  exists w',
    MarketUpdater.updateMarket marketId normalized existingMarket w = (Ok false, w')
    /\ result w' = result w.
Proof.
  intros Hdb Hf. unfold MarketUpdater.updateMarket, try_catch. cbv zeta.
  destruct (detectShock_storage marketId
              (or_zero (MarketData.probability existingMarket))
              (parseFloat (NormalizeById.NormalizedMarket.Price normalized)) w)
    as (o & w1 & Hrun & Hdb1 & Hf1 & Hr1).
  unfold bind at 1. rewrite Hrun.
  unfold bind at 1. rewrite getFirestore_ready by congruence.
  unfold bind at 1, Date_now.
  destruct (MarketUpdater.updatedDocument _ _ _ _ _) as [defined document].
  unfold bind at 1.
  destruct (market_set_merge_fails (MarketData.id existingMarket) defined
              document (advance w1) fs) as (e & w2 & Hset & Hr2);
    [cbn; congruence|].
  rewrite Hset. eexists. split; [reflexivity|]. rewrite Hr2. exact Hr1.
Qed.

Lemma updateMarket_never_throws marketId normalized existingMarket :
  never_throws (MarketUpdater.updateMarket marketId normalized existingMarket).
Proof.
  apply never_throws_try_catch. intros e. apply never_throws_ret.
Qed.

(** A record of the batch that matches is accounted for exactly once,
    whether its update succeeds or fails. *)
Lemma processNormalized_accounts existingMarkets normalizedMarket w :
  exists w',
    MarketUpdater.processNormalized existingMarkets normalizedMarket w = (Ok tt, w')
    /\ handled w'
       = (handled w + matched existingMarkets [normalizedMarket])%nat.
Proof.
  unfold MarketUpdater.processNormalized, matched. cbn [List.filter].
  destruct (existingMarkets !! _) as [existingMarket|]; cbn [is_defined List.length].
  2:{ exists w. split; [reflexivity | lia]. }
  set (upd := MarketUpdater.updateMarket _ _ _).
  destruct (never_throws_run upd w) as (b & w1 & Hrun);
    [apply updateMarket_never_throws|].
  pose proof (updateMarket_same_result (MarketData.id existingMarket)
                normalizedMarket existingMarket w) as Hres.
  fold upd in Hres. rewrite Hrun in Hres. cbn [snd] in Hres.
  unfold bind at 1. rewrite Hrun. unfold same_result in Hres.
  destruct b.
  - unfold bind, count_updated, count_shock, modify, ret.
    destruct (ge _ _); eexists; (split; [reflexivity|]);
      unfold handled; cbn; rewrite Hres; lia.
  - unfold count_error, modify. eexists. split; [reflexivity|].
    unfold handled. cbn. rewrite Hres. lia.
Qed.

Lemma matched_cons existingMarkets n l :
  matched existingMarkets (n :: l)
  = (matched existingMarkets [n] + matched existingMarkets l)%nat.
Proof.
  unfold matched. cbn [List.filter].
  destruct (is_defined _); cbn [List.length]; lia.
Qed.

(** The loop over the normalized markets of an event runs to its end and
    accounts for every match. *)
Lemma for_each_processNormalized existingMarkets l w :
  exists w',
    MarketUpdater.for_each l (MarketUpdater.processNormalized existingMarkets) w
    = (Ok tt, w')
    /\ handled w' = (handled w + matched existingMarkets l)%nat.
Proof.
  unfold MarketUpdater.for_each. revert w.
  induction l as [|n l IH]; intros w; cbn [for_of].
  - exists w. split; [reflexivity|]. unfold matched. cbn. lia.
  - destruct (processNormalized_accounts existingMarkets n w) as (w1 & Hrun & Hcount).
    unfold bind at 1. rewrite Hrun.
    destruct (IH w1) as (w2 & Hrun2 & Hcount2).
    exists w2. split; [exact Hrun2|].
    rewrite Hcount2, Hcount, (matched_cons existingMarkets n l). lia.
Qed.

End CountersFrame.

(** ** Claims about the reconciliation cycle of marketUpdater.ts *)

Section CycleClaims.
Import MarketUpdater.

(** C8.  [updateMarkets] always returns the counters
    [{updated, errors, shocks}] and never lets an exception out.  An
    exception in the update of one record is turned into [false] by
    [updateMarket], which leaves the counters alone; the loop then counts
    the record as an error and goes on: it runs to its end and every
    matched record is counted once, as updated or as an error.  In
    particular, when the write of a matched record throws, the error
    counter goes up by one and the other two counters stay.  The loop
    over the events does not throw either, and whatever is thrown
    elsewhere in the cycle is caught at the top. *)
Theorem updateMarkets_never_throws :
  (forall w, exists r w', updateMarkets w = (Ok r, w') /\ r = result w')
  /\ (forall marketId normalized existingMarket w,
        exists updated w',
          updateMarket marketId normalized existingMarket w = (Ok updated, w')
          /\ result w' = result w)
  /\ (forall existingMarkets normalizedMarkets w,
        exists w',
          for_each normalizedMarkets (processNormalized existingMarkets) w
          = (Ok tt, w')
          /\ handled w'
             = (handled w + matched existingMarkets normalizedMarkets)%nat)
  /\ (forall existingMarkets normalizedMarket existingMarket w fs,
        existingMarkets !! NormalizeById.NormalizedMarket.marketId normalizedMarket
        = Some existingMarket ->
        db w = true -> faults w = true :: fs ->
        exists w',
          processNormalized existingMarkets normalizedMarket w = (Ok tt, w')
          /\ result w'
             = Counters.mk (Counters.updated (result w))
                           (S (Counters.errors (result w)))
                           (Counters.shocks (result w)))
  /\ (forall existingMarketIds existingMarkets gammaEvents w,
        exists w',
          for_each gammaEvents (processEvent existingMarketIds existingMarkets) w
          = (Ok tt, w')).
Proof.
  split; [|split; [|split; [|split]]].
  - intros w. unfold updateMarkets.
    set (body := try_catch _ _).
    assert (Hbody : never_throws body).
    { apply never_throws_try_catch. intros e. apply never_throws_modify. }
    unfold bind, modify.
    destruct (never_throws_run body (set_result (Counters.mk 0 0 0) w) Hbody)
      as (u & w1 & Hrun).
    rewrite Hrun. unfold get. eauto.
  - intros marketId normalized existingMarket w.
    destruct (never_throws_run (updateMarket marketId normalized existingMarket) w
                (updateMarket_never_throws _ _ _)) as (b & w1 & Hrun).
    exists b, w1. split; [exact Hrun|].
    pose proof (updateMarket_same_result marketId normalized existingMarket w) as H.
    rewrite Hrun in H. exact H.
  - intros. apply for_each_processNormalized.
  - intros ems nm em w fs Hem Hdb Hf. unfold processNormalized. rewrite Hem.
    destruct (updateMarket_write_fails (MarketData.id em) nm em w fs Hdb Hf)
      as (w1 & Hrun & Hres).
    unfold bind. rewrite Hrun. unfold count_error, modify.
    eexists. split; [reflexivity|]. cbn. now rewrite Hres.
  - intros ids ems events w.
    assert (H : never_throws (for_each events (processEvent ids ems))).
    { apply never_throws_for_of. intros ev []. unfold processEvent.
      apply never_throws_try_catch. intros e. apply never_throws_modify. }
    destruct (never_throws_run _ w H) as ([] & w' & Hrun). now exists w'.
Qed.

Lemma updateMarkets_never_throws_witness :
  ({[ "m1" := Examples.stored ]} : gmap string MarketData.t) !! "m1"
  = Some Examples.stored
  /\ exists w',
       processNormalized {[ "m1" := Examples.stored ]} Examples.same_price
         (set_db true (Examples.world_of [("m1", Examples.stored)] [] [true]))
       = (Ok tt, w')
       /\ result w' = Counters.mk 0 1 0.
Proof.
  split; [apply lookup_singleton_eq|].
  destruct updateMarkets_never_throws as (_ & _ & _ & H & _).
  apply (H {[ "m1" := Examples.stored ]} Examples.same_price Examples.stored
           (set_db true (Examples.world_of [("m1", Examples.stored)] [] [true]))
           []);
    [apply lookup_singleton_eq | reflexivity | reflexivity].
Defined.

(** One failure in five.  Five records are matched and the write of the
    third fails: the other four are updated, the error counter reads 1,
    and the third keeps its probability. *)
Lemma one_failure_in_five :
  let w := Examples.world_of Examples.five_docs Examples.five_moved
             [false; false; false; false; false; true] in
  let out := updateMarkets w in
  fst out = Ok (Counters.mk 4 1 4)
  /\ List.map (fun kd => (fst kd, MarketData.probability (snd kd)))
       (markets (snd out))
     = [("m1", Fin (3 # 5)); ("m2", Fin (3 # 5)); ("m3", Fin (40 # 100));
        ("m4", Fin (3 # 5)); ("m5", Fin (3 # 5))].
Proof. cbv zeta. split; vm_compute; reflexivity. Qed.

(** A failure of the cycle itself.  The second read of the collection
    throws, outside of every loop: the cycle still returns its counters,
    with one error. *)
Lemma cycle_failure_is_counted :
  fst (updateMarkets
         (Examples.world_of Examples.five_docs Examples.five_moved
            [false; false; true]))
  = Ok (Counters.mk 0 1 0).
Proof. vm_compute. reflexivity. Qed.

End CycleClaims.

(** ** Claims about the update of one record *)

Section UpdateClaims.
Import Firestore.

Ltac evaluate :=
  repeat match goal with |- _ /\ _ => split end; vm_compute; reflexivity.

(** C1, where the code departs from it.  The store holds a record with
    probability 0.40 whose last genuine change was from 0.30 by 0.10, and
    upstream reports 0.40 again, so [|new - stored| < 0.001].  The update
    succeeds and advances [lastUpdated], and it also overwrites
    [previousProbability] with 0.40 and [changeDelta] with 0: the last
    genuine change is erased. *)
Theorem updateMarket_erases_last_change :
  let w := Examples.world_of [("m1", Examples.stored)] [] [] in
  let out := MarketUpdater.updateMarket "m1" Examples.same_price Examples.stored w in
  let written := lookup_doc "m1" (markets (snd out)) in
  lt (Math_abs (sub (parseFloat "0.40") (MarketData.probability Examples.stored)))
     (Fin (1 # 1000)) = true
  /\ fst out = Ok true
  /\ MarketData.previousProbability Examples.stored = Some (Fin (30 # 100))
  /\ MarketData.changeDelta Examples.stored = Some (Fin (10 # 100))
  /\ option_map MarketData.previousProbability written = Some (Some (Fin (40 # 100)))
  /\ option_map MarketData.changeDelta written = Some (Some (Fin 0))
  /\ MarketData.lastUpdated Examples.stored = 1700000000000
  /\ option_map MarketData.lastUpdated written = Some 1767225600500
  /\ ~ opt_num_eq (Some (Fin (40 # 100)))
         (MarketData.previousProbability Examples.stored)
  /\ ~ opt_num_eq (Some (Fin 0)) (MarketData.changeDelta Examples.stored).
Proof.
  cbv zeta.
  repeat match goal with |- _ /\ _ => split end;
    try (vm_compute; reflexivity); cbn; unfold Qeq; cbn; lia.
Qed.

(** The import of App.tsx does what C1 asks of the update: below the
    epsilon it hands on the stored [previousProbability], and the stored
    [changeDelta] rounded to four decimals. *)
Lemma smartChange_keeps_last_change (existing : MarketData.t) (probability : number) :
  gt (Math_abs (sub (or_zero probability) (or_zero (MarketData.probability existing))))
     (Fin (1 # 1000)) = false ->
  ImportPath.smartChange (Some existing) probability
  = (MarketData.previousProbability existing,
     ImportPath.clean (or_zero (default NaN (MarketData.changeDelta existing)))).
Proof. intros H. unfold ImportPath.smartChange. now rewrite H. Qed.

Lemma smartChange_example :
  ImportPath.smartChange (Some Examples.stored) (Fin (40 # 100))
  = (Some (Fin (30 # 100)), Fin (1 # 10)).
Proof. vm_compute. reflexivity. Qed.

(** C2, where marketUpdater.ts departs from it.  The same update replaces
    the title, the question, the catalyst, the volume, the tags and the
    resolve date of the stored record by what upstream reports. *)
Theorem updateMarket_overwrites_descriptive_fields :
  let w := Examples.world_of [("m1", Examples.stored)] [] [] in
  let out := MarketUpdater.updateMarket "m1" Examples.same_price Examples.stored w in
  fst out = Ok true
  /\ descriptive Examples.stored
     = ("Fed cuts rates in June?", Some "Will the Fed cut rates in June?",
        Some "FOMC", Some (VStr "$1,250,000"), Some ["economy"; "fed"],
        "2030-06-30")
  /\ option_map descriptive (lookup_doc "m1" (markets (snd out)))
     = Some ("Fed rate cut in June?", Some "Fed rate cut in June?",
             Some "Fed decision", Some (VNum (of_Z 50000)),
             Some ["economy"; "us_politics"], "2030-07-01").
Proof. cbv zeta. evaluate. Qed.

End UpdateClaims.

(** ** The variant that writes the price fields only *)

Section PriceFieldsOnly.
Import ShockDetector Firestore.

#[local] Instance same_descriptions_refl : Reflexive same_descriptions.
Proof. intros w. reflexivity. Qed.

#[local] Instance same_descriptions_trans : Transitive same_descriptions.
Proof. intros a b c H1 H2. unfold same_descriptions in *. congruence. Qed.

Ltac frame_step :=
  first
    [ apply preserves_ret; typeclasses eauto
    | apply preserves_get; typeclasses eauto
    | apply preserves_throw; typeclasses eauto
    | apply preserves_modify; intros ?; reflexivity
    | apply preserves_bind; try typeclasses eauto
    | apply preserves_try_catch; try typeclasses eauto ].

Lemma write_doc_described key (f : MarketData.t -> MarketData.t) docs :
  (forall d, descriptive (f d) = descriptive d) ->
  described (write_doc key f None docs) = described docs.
Proof.
  intros Hf. unfold described.
  induction docs as [|[k d] r IH]; cbn [write_doc List.map]; [reflexivity|].
  destruct (String.eqb k key).
  - cbn [List.map fst snd]. now rewrite Hf.
  - destruct (String.ltb key k); cbn [List.map fst snd]; now rewrite IH.
Qed.

Lemma storage_call_same_descriptions what :
  preserves same_descriptions (storage_call what).
Proof. intros w. unfold storage_call. destruct (faults w) as [|[] fs]; reflexivity. Qed.

Lemma detectShock_same_descriptions marketId p n :
  preserves same_descriptions (detectShock marketId p n).
Proof.
  intros w. rewrite detectShock_run. cbv zeta. destruct (ge _ _); reflexivity.
Qed.

Lemma getFirestore_same_descriptions : preserves same_descriptions getFirestore.
Proof.
  unfold getFirestore. frame_step; [frame_step|].
  intros [|]; [frame_step|].
  frame_step; [|intros e; frame_step].
  frame_step; [apply storage_call_same_descriptions | intros _; frame_step].
Qed.

Lemma market_update_same_descriptions key f :
  (forall d, descriptive (f d) = descriptive d) ->
  preserves same_descriptions (market_update key f).
Proof.
  intros Hf. unfold market_update.
  frame_step; [apply storage_call_same_descriptions | intros _].
  frame_step; [frame_step | intros docs].
  destruct (lookup_doc key docs); [|frame_step].
  apply preserves_modify. intros w. unfold same_descriptions.
  cbn [markets set_markets]. now apply write_doc_described.
Qed.

(** In the variant that writes with [update], an update of a record
    changes the descriptive fields (title, question, catalyst, volume,
    tags, resolve date) of no document, whatever upstream reports and
    whether the write succeeds or fails. *)
Lemma updateMarket_by_id_keeps_descriptions marketId normalized existingMarket w :
  described
    (markets (snd (MarketUpdaterById.updateMarket marketId normalized
                     existingMarket w)))
  = described (markets w).
Proof.
  revert w. change (preserves same_descriptions
                      (MarketUpdaterById.updateMarket marketId normalized
                         existingMarket)).
  unfold MarketUpdaterById.updateMarket. frame_step; [|intros e; frame_step].
  frame_step; [apply detectShock_same_descriptions|]. intros _shock.
  frame_step; [apply getFirestore_same_descriptions|]. intros _.
  frame_step; [intros w; reflexivity|]. intros lastUpdated.
  frame_step; [|intros _; frame_step].
  apply market_update_same_descriptions. intros d. reflexivity.
Qed.

(** On the input on which marketUpdater.ts replaces the descriptive
    fields, this variant writes the four price fields and nothing else. *)
Lemma updateMarket_by_id_example :
  let w := Examples.world_of [("m1", Examples.stored)] [] [] in
  let out := MarketUpdaterById.updateMarket "m1" Examples.same_price
               Examples.stored w in
  fst out = Ok true
  /\ lookup_doc "m1" (markets (snd out))
     = Some (MarketUpdaterById.priceFields (Fin (2 # 5)) 1767225600500
               (Fin (40 # 100)) (Fin 0) Examples.stored).
Proof. cbv zeta. split; vm_compute; reflexivity. Qed.

End PriceFieldsOnly.

(** ** Pre- and postconditions *)

Section Hoare.

Lemma hoare_weaken {A} (P P' Q Q' : World -> Prop) (m : M A) :
  (forall w, P' w -> P w) -> (forall w, Q w -> Q' w) ->
  hoare P m Q -> hoare P' m Q'.
Proof. intros HP HQ H w Hw. apply HQ, H, HP, Hw. Qed.

Lemma hoare_ret {A} (P : World -> Prop) (a : A) : hoare P (ret a) P.
Proof. intros w Hw. exact Hw. Qed.

Lemma hoare_bind {A B} (P Q1 Q : World -> Prop) (m : M A) (k : A -> M B) :
  hoare P m Q1 -> (forall w, Q1 w -> Q w) ->
  (forall a, hoare Q1 (k a) Q) -> hoare P (bind m k) Q.
Proof.
  intros Hm Hsub Hk w Hw. unfold bind. specialize (Hm w Hw).
  destruct (m w) as [[a|e] w1]; cbn [snd] in *.
  - now apply Hk.
  - now apply Hsub.
Qed.

(** The same, when the continuation needs a fact [V] about the value. *)
Lemma hoare_bind_value {A B} (P Q1 Q : World -> Prop) (V : A -> Prop)
    (m : M A) (k : A -> M B) :
  hoare P m Q1 -> (forall w, Q1 w -> Q w) ->
  (forall w a w', P w -> m w = (Ok a, w') -> V a) ->
  (forall a, V a -> hoare Q1 (k a) Q) -> hoare P (bind m k) Q.
Proof.
  intros Hm Hsub Hv Hk w Hw. unfold bind. specialize (Hm w Hw).
  specialize (Hv w).
  destruct (m w) as [[a|e] w1]; cbn [snd] in *.
  - apply Hk; [|exact Hm]. now apply (Hv a w1).
  - now apply Hsub.
Qed.

Lemma hoare_try_catch {A} (P Q1 Q : World -> Prop) (m : M A) (h : string -> M A) :
  hoare P m Q1 -> (forall w, Q1 w -> Q w) ->
  (forall e, hoare Q1 (h e) Q) -> hoare P (try_catch m h) Q.
Proof.
  intros Hm Hsub Hh w Hw. unfold try_catch. specialize (Hm w Hw).
  destruct (m w) as [[a|e] w1]; cbn [snd] in *.
  - now apply Hsub.
  - now apply Hh.
Qed.

Lemma hoare_for_of {A S} (P : World -> Prop) (l : list A)
    (body : A -> S -> M S) (s : S) :
  (forall x s', hoare P (body x s') P) -> hoare P (for_of l body s) P.
Proof.
  intros Hb. revert s. induction l as [|x r IH]; intros s; cbn [for_of].
  - apply hoare_ret.
  - apply hoare_bind with (Q1 := P); [apply Hb | auto | intros s'; apply IH].
Qed.

(** A computation that keeps the worlds related by [R] keeps every
    property that [R] carries over. *)
Lemma preserves_hoare {A} (R : World -> World -> Prop) (P : World -> Prop)
    (m : M A) :
  (forall w w', R w w' -> P w -> P w') -> preserves R m -> hoare P m P.
Proof. intros HR Hm w Hw. exact (HR _ _ (Hm w) Hw). Qed.

End Hoare.

(** ** What leaves the documents of the markets alone *)

#[export] Instance quiet_refl : Reflexive quiet.
Proof. intros w. split; [lia | reflexivity]. Qed.

#[export] Instance quiet_trans : Transitive quiet.
Proof.
  intros a b c [H1 H2] [H3 H4]. split; [lia | congruence].
Qed.

Section Quiet.
Import ShockDetector Firestore.

Ltac quiet_step :=
  first
    [ apply preserves_ret; typeclasses eauto
    | apply preserves_get; typeclasses eauto
    | apply preserves_throw; typeclasses eauto
    | apply preserves_modify; intros ?; split; [cbn; lia | reflexivity]
    | apply preserves_bind; try typeclasses eauto
    | apply preserves_try_catch; try typeclasses eauto ].

Lemma quiet_advance (w : World) : quiet w (advance w).
Proof. split; [apply clock_advance | reflexivity]. Qed.

Lemma quiet_set_recentShocks l (w : World) : quiet w (set_recentShocks l w).
Proof. split; [cbn; lia | reflexivity]. Qed.

Lemma Date_now_quiet : preserves quiet Date_now.
Proof. intros w. apply quiet_advance. Qed.

Lemma storage_call_quiet what : preserves quiet (storage_call what).
Proof.
  intros w. unfold storage_call.
  destruct (faults w) as [|[] fs]; split; cbn; (lia || reflexivity).
Qed.

Lemma getFirestore_quiet : preserves quiet getFirestore.
Proof.
  unfold getFirestore. quiet_step; [quiet_step|].
  intros [|]; [quiet_step|].
  quiet_step; [|intros e; quiet_step].
  quiet_step; [apply storage_call_quiet | intros _; quiet_step].
Qed.

Lemma markets_get_quiet limit : preserves quiet (markets_get limit).
Proof.
  unfold markets_get. quiet_step; [apply storage_call_quiet | intros _].
  intros w. cbn. reflexivity.
Qed.

Lemma detectShock_quiet marketId p n : preserves quiet (detectShock marketId p n).
Proof.
  intros w. rewrite detectShock_run. cbv zeta.
  destruct (ge _ _); cbn [snd]; [|reflexivity].
  etransitivity; [apply quiet_advance|].
  etransitivity; [apply quiet_set_recentShocks|].
  etransitivity; [apply quiet_advance|].
  apply quiet_set_recentShocks.
Qed.

Lemma checkShockAlert_quiet : preserves quiet checkShockAlert.
Proof.
  intros w. rewrite checkShockAlert_run. cbv zeta.
  destruct (_ <=? _)%nat; cbn [snd].
  - repeat (etransitivity; [|apply quiet_advance]). reflexivity.
  - apply quiet_advance.
Qed.

Lemma cleanupOldShocks_quiet : preserves quiet cleanupOldShocks.
Proof.
  intros w. rewrite cleanupOldShocks_run. cbn [snd].
  etransitivity; [apply quiet_advance | apply quiet_set_recentShocks].
Qed.

Lemma alert_set_quiet key alert : preserves quiet (alert_set key alert).
Proof.
  unfold alert_set. quiet_step; [apply storage_call_quiet | intros _].
  quiet_step.
Qed.

Lemma raiseAlert_quiet : preserves quiet MarketUpdater.raiseAlert.
Proof.
  unfold MarketUpdater.raiseAlert.
  quiet_step; [apply checkShockAlert_quiet | intros [a|]]; [|quiet_step].
  quiet_step; [apply getFirestore_quiet | intros _; apply alert_set_quiet].
Qed.

Lemma count_updated_quiet : preserves quiet count_updated.
Proof. unfold count_updated. quiet_step. Qed.

Lemma count_error_quiet : preserves quiet count_error.
Proof. unfold count_error. quiet_step. Qed.

Lemma count_shock_quiet : preserves quiet count_shock.
Proof. unfold count_shock. quiet_step. Qed.

Lemma getExistingMarketIds_by_id_quiet :
  preserves quiet MarketUpdaterById.getExistingMarketIds.
Proof.
  unfold MarketUpdaterById.getExistingMarketIds.
  quiet_step; [|intros e; quiet_step].
  quiet_step; [apply getFirestore_quiet | intros _].
  quiet_step; [apply markets_get_quiet | intros snapshot; quiet_step].
Qed.

Lemma fetchGammaMarkets_by_id_quiet :
  preserves quiet MarketUpdaterById.fetchGammaMarkets.
Proof.
  intros w. cbn. reflexivity.
Qed.

(** A property of the record [key] that holds from [t0] on survives
    whatever leaves the markets alone. *)
Lemma holds_record_quiet t0 key r (w w' : World) :
  quiet w w' -> holds_record t0 key r w -> holds_record t0 key r w'.
Proof.
  intros [Hc Hm] [Ht Hl]. split; [lia | now rewrite Hm].
Qed.

Lemma lookup_write_doc_other {A} (key key' : string) (f : A -> A)
    (fresh : option A) (docs : list (string * A)) :
  key' <> key ->
  lookup_doc key (write_doc key' f fresh docs) = lookup_doc key docs.
Proof.
  intros Hne. induction docs as [|[k d] r IH]; cbn [write_doc lookup_doc].
  - destruct fresh; cbn [lookup_doc]; [|reflexivity].
    destruct (String.eqb_spec key' key); [contradiction | reflexivity].
  - destruct (String.eqb_spec k key') as [->|Hk].
    + cbn [lookup_doc]. destruct (String.eqb_spec key' key); [contradiction|].
      reflexivity.
    + destruct (String.ltb key' k); [destruct fresh|]; cbn [lookup_doc].
      * destruct (String.eqb_spec key' key); [contradiction | reflexivity].
      * now rewrite IH.
      * now rewrite IH.
Qed.

(** [update] of another document leaves the record [key] as it is. *)
Lemma market_update_other t0 key r key' f :
  key' <> key ->
  hoare (holds_record t0 key r) (market_update key' f) (holds_record t0 key r).
Proof.
  intros Hne. unfold market_update.
  apply hoare_bind with (Q1 := holds_record t0 key r); [| auto | intros _].
  { apply (preserves_hoare quiet);
      [apply holds_record_quiet | apply storage_call_quiet]. }
  apply hoare_bind with (Q1 := holds_record t0 key r); [| auto | intros docs].
  { intros w Hw. exact Hw. }
  destruct (lookup_doc key' docs).
  - intros w [Ht Hl]. split; [exact Ht|]. cbn [snd modify markets set_markets].
    now rewrite lookup_write_doc_other.
  - intros w Hw. exact Hw.
Qed.

End Quiet.

(** ** The variant that freezes resolved markets *)

Section Frozen.
Import ShockDetector Firestore MarketUpdaterById.

Variable Date_parse : string -> option Z.
Variable tz : Z.

Lemma local_midnight_mono (t t' : Z) :
  t <= t' -> local_midnight tz t <= local_midnight tz t'.
Proof.
  intros H. unfold local_midnight, MS_PER_DAY.
  assert (Hd : (t + tz) / 86400000 <= (t' + tz) / 86400000)
    by (apply Z.div_le_mono; lia).
  lia.
Qed.

(** Once a date is in the past it stays there. *)
Lemma resolved_at_mono (t t' : Z) (endDate resolveDate : option string) :
  t <= t' ->
  resolved_at Date_parse tz t endDate resolveDate = true ->
  resolved_at Date_parse tz t' endDate resolveDate = true.
Proof.
  intros Ht. unfold resolved_at.
  destruct (negb _ && negb _); [easy|].
  destruct (if NormalizeCommon.opt_nonempty endDate then endDate else resolveDate)
    as [dateStr|]; [|easy].
  destruct (negb (nonempty dateStr)); [easy|].
  destruct (parse_date Date_parse tz dateStr) as [date|]; [|easy].
  pose proof (local_midnight_mono t t' Ht) as Hm.
  destruct (is_defined (plain_date dateStr)); rewrite !Z.ltb_lt; lia.
Qed.

(** [isMarketResolved] returns the decision for the time it reads, and
    leaves the markets alone. *)
Lemma isMarketResolved_run (endDate resolveDate : option string) (w : World) :
  exists w',
    isMarketResolved Date_parse tz endDate resolveDate w
    = (Ok (resolved_at Date_parse tz (next_time w) endDate resolveDate), w')
    /\ quiet w w'.
Proof.
  unfold isMarketResolved, resolved_at.
  destruct (negb _ && negb _); [exists w; split; reflexivity|].
  destruct (if NormalizeCommon.opt_nonempty endDate then endDate else resolveDate)
    as [dateStr|]; [|exists w; split; reflexivity].
  destruct (negb (nonempty dateStr)); [exists w; split; reflexivity|].
  destruct (parse_date Date_parse tz dateStr) as [date|];
    [|exists w; split; reflexivity].
  exists (advance w). unfold bind, Date_now.
  destruct (is_defined (plain_date dateStr));
    (split; [reflexivity | apply quiet_advance]).
Qed.

(** For a record whose resolve date is in the past the check of the loop
    says so, at any later time. *)
Lemma past_resolved (t0 t : Z) (r : MarketData.t) :
  past Date_parse tz t0 r = true -> t0 <= t ->
  resolved_at Date_parse tz t
    (first_truthy [Some (MarketData.resolveDate r); MarketData.endDate r;
                   MarketData.EndDate r])
    (Some (MarketData.resolveDate r)) = true.
Proof.
  intros Hpast Ht. unfold past in Hpast.
  assert (Hne : nonempty (MarketData.resolveDate r) = true).
  { unfold resolved_at in Hpast. cbn [NormalizeCommon.opt_nonempty] in Hpast.
    destruct (nonempty (MarketData.resolveDate r)); [reflexivity|].
    cbn in Hpast. discriminate. }
  cbn [first_truthy NormalizeCommon.opt_nonempty]. rewrite Hne.
  now apply (resolved_at_mono t0 t).
Qed.

Variable t0 : Z.
Variable key : string.
Variable r : MarketData.t.

#[local] Abbreviation holds := (holds_record t0 key r).

Lemma holds_preserved {A} (m : M A) : preserves quiet m -> hoare holds m holds.
Proof. apply preserves_hoare. apply holds_record_quiet. Qed.

Lemma updateMarket_other marketId normalized existingMarket :
  MarketData.id existingMarket <> key ->
  hoare holds (updateMarket marketId normalized existingMarket) holds.
Proof.
  intros Hne. unfold updateMarket.
  apply hoare_try_catch with (Q1 := holds); [| auto | intros e; apply hoare_ret].
  apply hoare_bind with (Q1 := holds); [| auto | intros _shock].
  { apply holds_preserved, detectShock_quiet. }
  apply hoare_bind with (Q1 := holds); [| auto | intros _].
  { apply holds_preserved, getFirestore_quiet. }
  apply hoare_bind with (Q1 := holds); [| auto | intros lastUpdated].
  { apply holds_preserved, Date_now_quiet. }
  apply hoare_bind with (Q1 := holds); [| auto | intros _; apply hoare_ret].
  now apply market_update_other.
Qed.

Lemma refreshMarket_other marketId existingMarket gammaMarket :
  MarketData.id existingMarket <> key ->
  hoare holds (refreshMarket marketId existingMarket gammaMarket) holds.
Proof.
  intros Hne. unfold refreshMarket. cbv zeta.
  destruct (invalid_price _ && negb _); [apply hoare_ret|].
  apply hoare_bind with (Q1 := holds); [| auto | intros updated].
  { now apply updateMarket_other. }
  destruct updated.
  - apply hoare_bind with (Q1 := holds); [| auto | intros _].
    { apply holds_preserved, count_updated_quiet. }
    destruct (ge _ _); [apply holds_preserved, count_shock_quiet | apply hoare_ret].
  - apply holds_preserved, count_error_quiet.
Qed.

(** One turn of the loop: the record [key], resolved since [t0], is not
    touched, provided the only record of the lookup table that carries
    the id [key] is [r] itself. *)
Lemma processMarket_frozen (existingMarketsByMarketId : gmap string MarketData.t)
    (marketsById : gmap string GammaMarket.t) (marketId : string) :
  past Date_parse tz t0 r = true ->
  (forall mid em, existingMarketsByMarketId !! mid = Some em ->
                  MarketData.id em = key -> em = r) ->
  hoare holds
    (processMarket Date_parse tz existingMarketsByMarketId marketsById marketId)
    holds.
Proof.
  intros Hpast Hmap. unfold processMarket.
  destruct (existingMarketsByMarketId !! marketId) as [em|] eqn:Hem;
    [|apply hoare_ret].
  destruct (negb (nonempty (MarketData.id em))); [apply hoare_ret|].
  intros w Hw. unfold bind at 1.
  destruct (isMarketResolved_run
              (first_truthy [Some (MarketData.resolveDate em); MarketData.endDate em;
                             MarketData.EndDate em])
              (Some (MarketData.resolveDate em)) w) as (w1 & Hrun & Hq).
  rewrite Hrun.
  pose proof (holds_record_quiet _ _ _ _ _ Hq Hw) as Hw1.
  destruct (resolved_at Date_parse tz (next_time w) _ _) eqn:Hres; [exact Hw1|].
  assert (Hne : MarketData.id em <> key).
  { intros Hid. specialize (Hmap _ _ Hem Hid). subst em.
    destruct Hw as [Ht _].
    rewrite (past_resolved t0 (next_time w) r Hpast) in Hres; [discriminate|].
    pose proof (clock_next_time w). lia. }
  destruct (marketsById !! marketId) as [gm|]; [|exact Hw1].
  destruct (_ || _); [exact Hw1|].
  assert (H : hoare holds (try_catch (refreshMarket marketId em gm)
                             (fun _ => count_error)) holds).
  { apply hoare_try_catch with (Q1 := holds);
      [now apply refreshMarket_other | auto |].
    intros e. apply holds_preserved, count_error_quiet. }
  exact (H w1 Hw1).
Qed.

End Frozen.

Section FrozenCycle.
Import ShockDetector Firestore MarketUpdaterById.

Lemma lookup_doc_In (docs : list (string * MarketData.t)) k d :
  List.NoDup (List.map fst docs) -> In (k, d) docs -> lookup_doc k docs = Some d.
Proof.
  induction docs as [|[k' d'] rest IH]; cbn [List.map fst lookup_doc];
    intros Hnd Hin; [destruct Hin|].
  apply List.NoDup_cons_iff in Hnd. destruct Hnd as [Hk' Hnd].
  destruct Hin as [E|Hin].
  - injection E as -> ->. now rewrite String.eqb_refl.
  - destruct (String.eqb_spec k' k) as [->|Hne]; [|now apply IH].
    exfalso. apply Hk'. apply in_map_iff. now exists (k, d).
Qed.

(** Every record of the lookup table by Polymarket id is a document of
    the snapshot it was built from. *)
Lemma byMarketId_from_snapshot (snapshot : list (string * MarketData.t))
    (m0 : gmap string MarketData.t) (mid : string) (em : MarketData.t) :
  fold_left
    (fun (m : gmap string MarketData.t) (doc : string * MarketData.t) =>
       let data := snd doc in
       match first_truthy [MarketData.MarketID data; MarketData.marketId data;
                           MarketData.MarketId data] with
       | Some marketId => <[marketId := data]> m
       | None => m
       end)
    snapshot m0 !! mid = Some em ->
  m0 !! mid = Some em \/ exists k, In (k, em) snapshot.
Proof.
  revert m0. induction snapshot as [|[k d] rest IH]; intros m0; cbn [fold_left].
  - now left.
  - intros H. apply IH in H. destruct H as [H|[k' H]].
    + cbv zeta in H. cbn [snd] in H.
      destruct (first_truthy _) as [marketId|]; [|now left].
      apply lookup_insert_Some in H. destruct H as [[_ <-]|[_ H]].
      * right. exists k. now left.
      * now left.
    + right. exists k'. now right.
Qed.

(** What [markets_get] returns is the collection as it stands. *)
Lemma markets_get_value (w w' : World) snapshot :
  markets_get None w = (Ok snapshot, w') -> snapshot = markets w.
Proof.
  unfold markets_get, bind, storage_call, get, ret.
  destruct (faults w) as [|[] fs]; cbn; intros H; now inversion H.
Qed.

(** In the variant with [isMarketResolved]: if every document is stored
    under its own id and the resolve date of the document [key] is in the
    past when a cycle starts, the cycle leaves that document as it is
    (its probability included), whatever upstream reports, whatever the
    clock does and whichever writes fail. *)
Lemma resolved_market_stays_frozen (Date_parse : string -> option Z) (tz : Z)
    (w : World) (key : string) (r : MarketData.t) :
  well_keyed (markets w) ->
  lookup_doc key (markets w) = Some r ->
  past Date_parse tz (clock w) r = true ->
  lookup_doc key (markets (snd (updateMarkets Date_parse tz w))) = Some r.
Proof.
  intros [Hkeyed Hnodup] Hlookup Hpast.
  set (K := fun w' : World => quiet w w').
  set (I := holds_record (clock w) key r).
  assert (HKI : forall w', K w' -> I w').
  { intros w' [Hc Hm]. split; [exact Hc | now rewrite Hm]. }
  assert (HK : forall A (m : M A), preserves quiet m -> hoare K m K).
  { intros A m Hm. apply (preserves_hoare quiet); [|exact Hm].
    intros a b Hab Ha. unfold K in *. etransitivity; eassumption. }
  assert (HI : forall A (m : M A), preserves quiet m -> hoare I m I).
  { intros A m Hm. apply (preserves_hoare quiet); [|exact Hm].
    apply holds_record_quiet. }
  assert (Hcycle : hoare K (updateMarkets Date_parse tz) I).
  { unfold updateMarkets.
    apply hoare_bind with (Q1 := K); [| exact HKI | intros _].
    { intros w' Hw'. unfold K in *. destruct Hw' as [Hc Hm].
      split; [exact Hc | exact Hm]. }
    apply hoare_bind with (Q1 := I); [| auto | intros _ w' Hw'; exact Hw'].
    apply hoare_try_catch with (Q1 := I); [| auto |];
      [|intros e; apply HI, count_error_quiet].
    apply hoare_bind with (Q1 := K); [| exact HKI | intros _].
    { apply HK, cleanupOldShocks_quiet. }
    apply hoare_bind with (Q1 := K); [| exact HKI | intros existingMarketIds].
    { apply HK, getExistingMarketIds_by_id_quiet. }
    destruct (_ =? 0)%nat.
    { apply hoare_weaken with (P := K) (Q := K); [auto | exact HKI | apply hoare_ret]. }
    apply hoare_bind with (Q1 := K); [| exact HKI | intros _].
    { apply HK, getFirestore_quiet. }
    apply hoare_bind_value
      with (Q1 := K) (V := fun snapshot => snapshot = markets w);
      [| exact HKI | | intros snapshot ->].
    { apply HK, markets_get_quiet. }
    { intros w1 snapshot w1' [_ Hm] Hrun.
      apply markets_get_value in Hrun. congruence. }
    cbv zeta.
    set (byId := fold_left _ (markets w) ∅).
    assert (Hmap : forall mid em, byId !! mid = Some em ->
                                  MarketData.id em = key -> em = r).
    { intros mid em Hem Hid. unfold byId in Hem.
      apply byMarketId_from_snapshot in Hem.
      destruct Hem as [Hem|[k Hin]]; [now rewrite lookup_empty in Hem|].
      pose proof (Hkeyed _ _ Hin) as Hk. rewrite Hid in Hk. subst k.
      apply lookup_doc_In in Hin; [|exact Hnodup]. congruence. }
    apply hoare_bind with (Q1 := K); [| exact HKI | intros gammaMarkets].
    { apply HK, fetchGammaMarkets_by_id_quiet. }
    destruct (_ =? 0)%nat.
    { apply hoare_weaken with (P := K) (Q := K); [auto | exact HKI | apply hoare_ret]. }
    apply hoare_weaken with (P := I) (Q := I); [exact HKI | auto |].
    apply hoare_bind with (Q1 := I); [| auto | intros _].
    { unfold MarketUpdater.for_each. apply hoare_for_of. intros marketId [].
      now apply processMarket_frozen. }
    apply HI, raiseAlert_quiet. }
  destruct (Hcycle w) as [_ H]; [unfold K; reflexivity | exact H].
Qed.

(** The lemma at work: the record that resolved on 2020-01-01 survives a
    cycle at the start of 2026 in which upstream reports another price. *)
Lemma resolved_market_stays_frozen_example :
  lookup_doc "m1"
    (markets
       (snd (updateMarkets (fun _ => None) 0
               (Examples.world_of [("m1", Examples.frozen)]
                  [Examples.event [Examples.moved "m1"]] []))))
  = Some Examples.frozen.
Proof.
  apply resolved_market_stays_frozen.
  - split.
    + intros k d [E|[]]. now injection E as <- <-.
    + repeat constructor. intros [].
  - reflexivity.
  - vm_compute. reflexivity.
Qed.

End FrozenCycle.

(** ** Resolved markets *)

Section ResolvedMarkets.
Import ShockDetector Firestore.

Ltac evaluate :=
  repeat match goal with |- _ /\ _ => split end; vm_compute; reflexivity.

(** C6, where marketUpdater.ts departs from it.  The store holds a
    record that resolved on 2020-01-01, with probability 0.40; it is the
    start of 2026 and upstream reports 0.60 for the same id.  The cycle of
    marketUpdater.ts, which has no check of the resolve date, updates the
    record: its probability becomes 0.60 and the move is counted as a
    shock.  The variant with [isMarketResolved] finds the date in the past
    and leaves the record as it is. *)
Theorem updateMarkets_rewrites_resolved_market :
  let w := Examples.world_of [("m1", Examples.frozen)]
             [Examples.event [Examples.moved "m1"]] [] in
  let out := MarketUpdater.updateMarkets w in
  past (fun _ => None) 0 (clock w) Examples.frozen = true
  /\ MarketData.probability Examples.frozen = Fin (40 # 100)
  /\ fst out = Ok (Counters.mk 1 0 1)
  /\ option_map MarketData.probability (lookup_doc "m1" (markets (snd out)))
     = Some (Fin (3 # 5))
  /\ lookup_doc "m1"
       (markets (snd (MarketUpdaterById.updateMarkets (fun _ => None) 0 w)))
     = Some Examples.frozen.
Proof. cbv zeta. evaluate. Qed.

End ResolvedMarkets.
